(** * PoGit: template contributions, their aggregation, and the Particle object

    A shallow embedding of [pogit/writer.py] (the function
    [WriteSimulationFiles]) and of [pogit/particle.py] (the constructor
    [Particle.__init__]), with the properties of the aggregation and
    rendering pass stated and proved over it.

    Python dictionaries are finite maps ([gmap string _]); nothing
    proved here depends on the iteration order of a dictionary.
    Exceptions are values of [exn]; the write pass threads the file
    system and the standard output through a state-and-error monad, so
    that what is on disk when an exception escapes can be stated.

    The Mako template engine, the codelets of [pogit/codelets/], the
    periodic table and the formatting of floats are parameters.  The
    classes [Laser] and [GridSolver] reach the writer only through
    their [templates] and are covered by [Templated]. *)

From Stdlib Require Import ZArith String Ascii DecimalString.
From Stdlib Require PrimFloat.
From stdpp Require Import base option list strings gmap fin_maps.

Open Scope string_scope.
Open Scope list_scope.

(** ** Python values, exceptions and string primitives *)

Module Py.

(** The values that flow through [params] and the render contexts.
    Python floats are IEEE binary64 numbers. *)
#[warnings="-register-all"]
Inductive pyval : Type :=
| VNone
| VStr (s : string)
| VInt (z : Z)
| VFloat (x : PrimFloat.float)
| VTuple (l : list pyval)
| VList (l : list pyval).

Inductive exn : Type :=
| KeyError (key : pyval)
| IndexError
| TypeError
| AttributeError (attr : string)
| ValueError (msg : string)
| FileNotFoundError (path : string)
| MakoError.

Inductive result (A : Type) : Type :=
| Ok (a : A)
| Raise (e : exn).
Arguments Ok {A} a.
Arguments Raise {A} e.

Definition rbind {A B} (r : result A) (k : A → result B) : result B :=
  match r with
  | Ok a => k a
  | Raise e => Raise e
  end.

#[export] Instance result_ret : MRet result := @Ok.
#[export] Instance result_bind : MBind result := λ A B k r, rbind r k.

Definition of_option {A} (o : option A) (e : exn) : result A :=
  match o with
  | Some a => Ok a
  | None => Raise e
  end.

(** Whatever the computation [r] raises satisfies [P]. *)
Definition raises_only {A} (P : exn → Prop) (r : result A) : Prop :=
  ∀ e, r = Raise e → P e.

(** The Python strings ["\n"] and [",\n"], a line feed and a comma
    followed by one. *)
Definition LF : string := String "010"%char EmptyString.
Definition comma_LF : string := String ","%char LF.

(** [sep.join(l)] *)
Fixpoint str_join (sep : string) (l : list string) : string :=
  match l with
  | [] => ""
  | [x] => x
  | x :: l' => x +:+ sep +:+ str_join sep l'
  end.

(** [s.startswith(p)] *)
Fixpoint startswith (p s : string) : bool :=
  match p, s with
  | EmptyString, _ => true
  | String a p', String b s' => bool_decide (a = b) && startswith p' s'
  | String _ _, EmptyString => false
  end.

(** [s[n:]] *)
Fixpoint str_drop (n : nat) (s : string) : string :=
  match n, s with
  | O, _ => s
  | S n', String _ s' => str_drop n' s'
  | S _, EmptyString => EmptyString
  end.

(** [old] occurs in [s] at offset [i]. *)
Definition occurs_at (old s : string) (i : nat) : Prop :=
  startswith old (str_drop i s) = true.

(** [s.replace(old, new)] for a non-empty [old]: scan from the left; at
    an occurrence of [old] emit [new] and jump over the occurrence,
    otherwise copy one character.  [skip] counts the characters of the
    occurrence that are still to be jumped over. *)
Fixpoint replace_from (old new : string) (skip : nat) (s : string) : string :=
  match s with
  | EmptyString => EmptyString
  | String c r =>
      match skip with
      | S k => replace_from old new k r
      | O =>
          if startswith old s
          then new +:+ replace_from old new (String.length old - 1) r
          else String c (replace_from old new 0 r)
      end
  end.

Definition str_replace (old new s : string) : string :=
  replace_from old new 0 s.

(** [s.split('.')[0]]: the characters before the first dot. *)
Fixpoint first_segment (s : string) : string :=
  match s with
  | EmptyString => EmptyString
  | String c r =>
      if bool_decide (c = "."%char) then EmptyString
      else String c (first_segment r)
  end.

(** [f"{z:d}"] *)
Definition format_int (z : Z) : string :=
  NilZero.string_of_int (Z.to_int z).

(** [v == s] for a string literal [s] *)
Definition eq_str (v : pyval) (s : string) : bool :=
  match v with
  | VStr s' => bool_decide (s' = s)
  | _ => false
  end.

(** [v[i]] on a tuple, a list or a string *)
Definition index (v : pyval) (i : nat) : result pyval :=
  match v with
  | VTuple l | VList l => of_option (l !! i) IndexError
  | VStr s =>
      of_option ((λ c, VStr (String c EmptyString)) <$> String.get i s)
                IndexError
  | _ => Raise TypeError
  end.

(** [hash(v)] returns: a list is not hashable, and a tuple is when all
    its items are. *)
Fixpoint hashable (v : pyval) : bool :=
  match v with
  | VList _ => false
  | VTuple l => forallb hashable l
  | _ => true
  end.

(** [d[k]] on a dictionary with string keys: the key is hashed first,
    which raises [TypeError] for an unhashable one. *)
Definition getitem {V} (d : gmap string V) (k : pyval) : result V :=
  match k with
  | VStr s => of_option (d !! s) (KeyError k)
  | _ => if hashable k then Raise (KeyError k) else Raise TypeError
  end.

(** [v is None] and [v is not None] *)
Definition is_None (v : pyval) : bool :=
  match v with
  | VNone => true
  | _ => false
  end.

Definition is_not_None (v : pyval) : bool := negb (is_None v).

(** [{**a, **b}]: the bindings of [b] win. *)
Definition dict_merge {V} (a b : gmap string V) : gmap string V := b ∪ a.

End Py.

Export Py.

(** ** The contribution model *)

(** One entry of [obj.templates]: a dictionary with the key
    ['filename'] and, optionally, the keys ['MainArgs'],
    ['AppendableArgs'] and ['CommaAppendableArgs']. *)
Record objectTemplate : Type := {
  filename : string;
  MainArgs : option (gmap string pyval);
  AppendableArgs : option (gmap string string);
  CommaAppendableArgs : option (gmap string string)
}.

(** What the writer needs of a simulation object: its [templates]. *)
Class Templated (Obj : Type) := templates : Obj → list objectTemplate.

(** The Mako template engine, an external collaborator: compiling a
    template text and rendering a compiled template against keyword
    arguments may each raise. *)
Class Mako := {
  Tmpl : Type;
  mako_Template : string → option Tmpl;
  mako_render : Tmpl → gmap string pyval → option string
}.

(** [Template(text).render( **args )] *)
Definition render_text `{Mako} (text : string) (args : gmap string pyval)
  : result string :=
  template ← of_option (mako_Template text) MakoError;
  of_option (mako_render template args) MakoError.

(** ** The write pass *)

Module Writer.

(** What the pass does to the outside world: it opens destination
    files for writing (which truncates them), writes the rendered text
    and prints the destination name. *)
Inductive event : Type :=
| EOpen (path : string)
| EWrite (path data : string)
| EPrint (line : string).

Record world : Type := {
  disk : gmap string string;
  trace : list event
}.

(** Computations that read and change the world and may raise; the
    world at the moment an exception escapes is kept. *)
Definition IO (A : Type) : Type := world → result A * world.

#[export] Instance IO_ret : MRet IO := λ A a w, (Ok a, w).
#[export] Instance IO_bind : MBind IO := λ A B k m w,
  match m w with
  | (Ok a, w') => k a w'
  | (Raise e, w') => (Raise e, w')
  end.

Definition lift {A} (r : result A) : IO A := λ w, (r, w).

(** [open(path, mode='w')] *)
Definition open_w (path : string) : IO unit := λ w,
  (Ok (), {| disk := <[path := ""]> (disk w);
             trace := trace w ++ [EOpen path] |}).

(** [file.writelines(data)] on the file opened at [path] *)
Definition writelines (path data : string) : IO unit := λ w,
  (Ok (), {| disk := <[path := default "" (disk w !! path) +:+ data]> (disk w);
             trace := trace w ++ [EWrite path data] |}).

(** [print(line)] *)
Definition print (line : string) : IO unit := λ w,
  (Ok (), {| disk := disk w; trace := trace w ++ [EPrint line] |}).

(** [for x in l: body(x)] *)
Fixpoint for_each {A} (l : list A) (body : A → IO unit) : IO unit :=
  match l with
  | [] => mret ()
  | x :: l' => body x ;; for_each l' body
  end.

(** The three transient dictionaries of one target file, while the
    contributions are gathered: [templateMainArgs],
    [templateAppendableArgs] and [templateCommaAppendableArgs] (the
    last two hold lists of fragments until they are joined). *)
Record buckets : Type := {
  templateMainArgs : gmap string pyval;
  templateAppendableArgs : gmap string (list string);
  templateCommaAppendableArgs : gmap string (list string)
}.

Definition empty_buckets : buckets :=
  {| templateMainArgs := ∅;
     templateAppendableArgs := ∅;
     templateCommaAppendableArgs := ∅ |}.

(** [for arg in d.keys():
       if arg not in acc.keys(): acc[arg] = []
       acc[arg].append(d[arg])] *)
Definition append_arg (arg frag : string) (acc : gmap string (list string))
  : gmap string (list string) :=
  let acc := if bool_decide (arg ∉ dom acc) then <[arg := []]> acc else acc in
  alter (λ l, l ++ [frag]) arg acc.

Definition append_args (d : gmap string string) (acc : gmap string (list string))
  : gmap string (list string) :=
  map_fold append_arg acc d.

(** The body of the inner loop for one [objectTemplate]. *)
Definition gather_template (fname : string) (b : buckets) (t : objectTemplate)
  : buckets :=
  if bool_decide (filename t ≠ fname) then b
  else
    {| templateMainArgs :=
         match MainArgs t with
         | Some m => m
         | None => templateMainArgs b
         end;
       templateAppendableArgs :=
         match AppendableArgs t with
         | Some d => append_args d (templateAppendableArgs b)
         | None => templateAppendableArgs b
         end;
       templateCommaAppendableArgs :=
         match CommaAppendableArgs t with
         | Some d => append_args d (templateCommaAppendableArgs b)
         | None => templateCommaAppendableArgs b
         end |}.

(** The value a key of [templateAppendableArgs] is rebound to. *)
Definition join_appendable (l : list string) : pyval :=
  VStr (str_join LF l).

(** The value a key of [templateCommaAppendableArgs] is rebound to:
    the list is joined when it is not empty and left as it is
    otherwise. *)
Definition join_comma (l : list string) : pyval :=
  if bool_decide (0 < length l) then VStr (str_join comma_LF l)
  else VList (VStr <$> l).

(** [templateArgs = { **templateMainArgs, **templateAppendableArgs,
                      **templateCommaAppendableArgs }] after the joins *)
Definition template_args (b : buckets) : gmap string pyval :=
  dict_merge
    (dict_merge (templateMainArgs b)
                (join_appendable <$> templateAppendableArgs b))
    (join_comma <$> templateCommaAppendableArgs b).

Definition path_include : string := "./include/picongpu/param/".
Definition path_etc : string := "./etc/picongpu/".

Section WriteSimulationFiles.
Context `{Mako} {Obj : Type} `{Templated Obj}.

(** [pogit.__path__[0]], the directory of the installed package *)
Variable src_path : string.
(** The template files of the package: path to text. *)
Variable template_files : gmap string string.

Definition templatePath : string := src_path +:+ "/templates/".

(** [Template(filename=path)] *)
Definition Template_from_file (path : string) : result Tmpl :=
  text ← of_option (template_files !! path) (FileNotFoundError path);
  of_option (mako_Template text) MakoError.

(** [template.render( **args )] *)
Definition render (template : Tmpl) (args : gmap string pyval)
  : result string :=
  of_option (mako_render template args) MakoError.

(** [if objectTemplate['filename'] not in FilesList:
       FilesList.append(objectTemplate['filename'])] *)
Definition list_file (FilesList : list string) (t : objectTemplate)
  : list string :=
  if bool_decide (filename t ∉ FilesList) then FilesList ++ [filename t]
  else FilesList.

Definition list_files (objs : list Obj) : list string :=
  foldl (λ FilesList obj, foldl list_file FilesList (templates obj)) [] objs.

(** The two nested loops over the objects and their templates. *)
Definition gather (objs : list Obj) (fname : string) : buckets :=
  foldl (λ b obj, foldl (gather_template fname) b (templates obj))
        empty_buckets objs.

(** The body of the loop over [FilesList].  The destination is
    opened, and so truncated, before the template is rendered. *)
Definition render_file (objs : list Obj) (fname : string) : IO unit :=
  template ← lift (Template_from_file (templatePath +:+ fname));
  let templateArgs := template_args (gather objs fname) in
  filename_dest ←
    (if bool_decide (first_segment fname = "run") then
       let filename_dest := str_replace "template" "cfg" fname in
       open_w (path_etc +:+ filename_dest);;
       text ← lift (render template templateArgs);
       writelines (path_etc +:+ filename_dest) text;;
       mret filename_dest
     else
       let filename_dest := str_replace "template" "param" fname in
       open_w (path_include +:+ filename_dest);;
       text ← lift (render template templateArgs);
       writelines (path_include +:+ filename_dest) text;;
       mret filename_dest);
  print filename_dest.

(** The output folders are taken to exist (the code creates them when
    they are missing and ignores a failure to do so). *)
Definition WriteSimulationFiles (objs : list Obj) : IO unit :=
  let FilesList := list_files objs in
  for_each FilesList (render_file objs).

(** *** Vocabulary of the statements about the pass *)

(** Every contribution of every object: objects in the order given,
    the templates of an object in the order of its list. *)
Definition all_templates (objs : list Obj) : list objectTemplate :=
  objs ≫= templates.

(** The contributions to one target file, in that order. *)
Definition contributions (objs : list Obj) (fname : string)
  : list objectTemplate :=
  filter (λ t, filename t = fname) (all_templates objs).

(** The outcome of loading and rendering the template of a target
    file against its merged arguments. *)
Definition rendered (objs : list Obj) (fname : string) : result string :=
  template ← Template_from_file (templatePath +:+ fname);
  render template (template_args (gather objs fname)).

End WriteSimulationFiles.

(** The fragments that the contributions [cs] supply for the key [K]
    in one of the two appendable dictionaries, in the order of [cs]. *)
Definition fragments (bucket : objectTemplate → option (gmap string string))
    (K : string) (cs : list objectTemplate) : list string :=
  omap (λ t, bucket t ≫= (.!! K)) cs.

(** The distinct elements of a list in the order of their first
    occurrences. *)
Fixpoint first_seen (l : list string) : list string :=
  match l with
  | [] => []
  | x :: l' => x :: filter (λ y, y ≠ x) (first_seen l')
  end.

(** The routing rule in the words of the interface description: the
    output directory and the destination name of a target file. *)
Definition routed (fname : string) : string * string :=
  if bool_decide (first_segment fname = "run")
  then (path_etc, str_replace "template" "cfg" fname)
  else (path_include, str_replace "template" "param" fname).

(** The world after the file [filename_dest] of the directory [dir] has
    been opened, written with [text] and reported. *)
Definition wrote (dir filename_dest text : string) (w : world) : world :=
  {| disk := <[dir +:+ filename_dest := text]> (disk w);
     trace := trace w ++ [ EOpen (dir +:+ filename_dest);
                           EWrite (dir +:+ filename_dest) text;
                           EPrint filename_dest ] |}.

(** The same for the destination that [fname] is routed to. *)
Definition written (fname text : string) (w : world) : world :=
  wrote (routed fname).1 (routed fname).2 text w.

(** No key of an appendable dictionary is ever bound to an empty list. *)
Definition no_empty_list (m : gmap string (list string)) : Prop :=
  ∀ k l, m !! k = Some l → l ≠ [].

(** A list of fragments as the binding of its key: no binding for no
    fragment. *)
Definition bound_to (l : list string) : option (list string) :=
  match l with
  | [] => None
  | _ => Some l
  end.

End Writer.

(** ** The Particle object *)

Module PogitParticle.

Import PrimFloat.

(** An instance of the class: [self.name] and [self.templates]. *)
Record Particle : Type := {
  self_name : string;
  self_templates : list objectTemplate
}.

#[export] Instance Particle_Templated : Templated Particle := self_templates.

(** The codelets of [pogit/codelets/]: template texts, some of them in
    dictionaries keyed by a name. *)
Class Codelets := {
  StartPosition : gmap string string;
  Manipulators : gmap string string;
  speciesDefinition : gmap string string;
  CreateDensity : string;
  SetIonCharge : string;
  densityProfile : gmap string string;
  speciesNumericalParam : string
}.

(** What [mendeleev.element] returns, as far as the constructor reads it. *)
Record Element : Type := {
  mass : float;
  atomic_number : Z
}.

(** The arguments of [Particle.__init__]. *)
Record InitArgs : Type := {
  name : string;
  species : string;
  initial_positions : pyval;
  typicalNppc : pyval;
  density_profile : option (gmap string pyval);
  base_density : pyval;
  relative_density : pyval;
  element : pyval;
  initial_charge : pyval;
  mass_ratio : pyval;
  charge_ratio : pyval;
  target_species : option Particle;
  ionizer_polarization : pyval;
  initial_temperature : pyval;
  shape_order : Z;
  pusher : pyval;
  current_deposition : pyval
}.

(** [species=='generic_ionizable' or species=='ion'] *)
Definition ionizable (species : string) : bool :=
  bool_decide (species = "generic_ionizable") || bool_decide (species = "ion").

Definition ParticleShapes : gmap Z string :=
  {[ 1%Z := "CIC"; 2%Z := "TSC"; 3%Z := "PCS"; 4%Z := "P4S" ]}.

Section Init.
Context `{Mako} `{Codelets}.

(** [f"{x:.15e}"] *)
Variable format_float : float → string.
(** [scipy.constants] *)
Variables atomic_mass m_e m_p : float.
(** [mendeleev.element], and the exception it raises for an element
    it does not find. *)
Variable table_element : pyval → option Element.
Variable element_error : pyval → exn.

(** The arguments with the defaults of the signature. *)
Definition default_args (name species : string) : InitArgs :=
  {| name := name; species := species;
     initial_positions := VNone; typicalNppc := VNone;
     density_profile := None; base_density := VNone;
     relative_density := VFloat 1;
     element := VNone; initial_charge := VInt 0;
     mass_ratio := VFloat (m_p / m_e); charge_ratio := VInt (-1);
     target_species := None; ionizer_polarization := VStr "Circ";
     initial_temperature := VNone;
     shape_order := 1; pusher := VStr "Boris";
     current_deposition := VStr "Esirkepov" |}.

(** Converting float and integer arguments to strings. *)
Definition stringify (v : pyval) : pyval :=
  match v with
  | VFloat x => VStr (format_float x)
  | VInt z => VStr (format_int z)
  | _ => v
  end.

(** The entries of [params] for the initial positions. *)
Definition params_positions (a : InitArgs) (params : gmap string pyval)
  : result (gmap string pyval) :=
  if is_not_None (initial_positions a) then
    kind ← index (initial_positions a) 0;
    if eq_str kind "Ordered" then
      n ← index (initial_positions a) 1;
      x ← index n 0;
      let params := <["NppcX" := x]> params in
      n ← index (initial_positions a) 1;
      y ← index n 1;
      let params := <["NppcY" := y]> params in
      n ← index (initial_positions a) 1;
      z ← index n 2;
      mret (<["NppcZ" := z]> params)
    else if eq_str kind "Random" then
      n ← index (initial_positions a) 1;
      mret (<["Nppc" := n]> params)
    else mret params
  else mret params.

(** The entries of [params] for a species that can be ionized. *)
Definition params_ionization (a : InitArgs) (params : gmap string pyval)
  : result (gmap string pyval) :=
  if ionizable (species a) then
    if is_None (element a) then
      Raise (ValueError (species a +:+ " needs `element` argument"))
    else
      let params := <["Element" := element a]> params in
      target ← of_option (target_species a) (AttributeError "name");
      let params := <["TargetSpeciesName" := VStr (self_name target)]> params in
      let params := <["InitialCharge" := initial_charge a]> params in
      mret (<["pol" := ionizer_polarization a]> params)
  else mret params.

(** The mass and charge ratios. *)
Definition params_ratios (a : InitArgs) (params : gmap string pyval)
  : result (gmap string pyval) :=
  if bool_decide (species a = "generic_ionizable")
     || bool_decide (species a = "generic_nonionizable") then
    let params := <["MassRatio" := mass_ratio a]> params in
    mret (<["ChargeRatio" := charge_ratio a]> params)
  else if bool_decide (species a = "ion") then
    el ← of_option (table_element (element a))
                   (element_error (element a));
    let params :=
      <["MassRatio" := VFloat (mass el * atomic_mass / m_e)]> params in
    mret (<["ChargeRatio" := VInt (- atomic_number el)]> params)
  else mret params.

(** The dictionary [params], up to and including the conversion of
    its numbers to strings. *)
Definition build_params (a : InitArgs) : result (gmap string pyval) :=
  let params : gmap string pyval := ∅ in
  let params := <["name" := VStr (name a)]> params in
  let params := <["type" := VStr (species a)]> params in
  shape ← of_option (ParticleShapes !! shape_order a)
                    (KeyError (VInt (shape_order a)));
  let params := <["ParticleShape" := VStr shape]> params in
  let params := <["CurrentSolver" := current_deposition a]> params in
  let params := <["ParticlePusher" := pusher a]> params in
  let params := <["Temperature" := initial_temperature a]> params in
  params ← params_positions a params;
  let params :=
    if is_not_None (typicalNppc a)
    then <["TYPICAL_PARTICLES_PER_CELL" := typicalNppc a]> params
    else params in
  let params :=
    if is_not_None (base_density a)
    then <["BASE_DENSITY" := base_density a]> params
    else params in
  let params := <["DensityRatio" := relative_density a]> params in
  params ← params_ionization a params;
  params ← params_ratios a params;
  mret (stringify <$> (params : gmap string pyval)).

(** Generic parameters *)
Definition template_species (params : gmap string pyval)
  : result objectTemplate :=
  text ← render_text speciesNumericalParam params;
  mret {| filename := "species.template";
          MainArgs := None;
          AppendableArgs := Some {[ "speciesNumericalParam" := text ]};
          CommaAppendableArgs := None |}.

(** Species definition *)
Definition template_speciesDefinition (a : InitArgs)
    (params : gmap string pyval) : result objectTemplate :=
  codelet ← getitem speciesDefinition (VStr (species a));
  text ← render_text codelet params;
  mret {| filename := "speciesDefinition.template";
          MainArgs := None;
          AppendableArgs := Some {[ "SpeciesDefinition" := text ]};
          CommaAppendableArgs :=
            Some {[ "SpeciesRuntimeName" := "PIC_" +:+ name a ]} |}.

(** Initialization features and manipulators *)
Definition template_particle (a : InitArgs) (params : gmap string pyval)
  : result objectTemplate :=
  let main := if is_not_None (typicalNppc a) then Some params else None in
  let appendable : gmap string string := ∅ in
  appendable ←
    (if is_not_None (initial_positions a) then
       kind ← index (initial_positions a) 0;
       codelet ← getitem StartPosition kind;
       text ← render_text codelet params;
       mret (<["StartPosition" := text]> appendable)
     else mret appendable);
  let manipulator_list : list string := [] in
  manipulator_list ←
    (if ionizable (species a) then
       codelet ← getitem Manipulators (VStr "SetIonCharge");
       text ← render_text codelet params;
       mret (manipulator_list ++ [text])
     else mret manipulator_list);
  manipulator_list ←
    (if is_not_None (initial_temperature a) then
       codelet ← getitem Manipulators (VStr "Temperature");
       text ← render_text codelet params;
       mret (manipulator_list ++ [text])
     else mret manipulator_list);
  let appendable :=
    <["Manipulators" := str_join LF manipulator_list]> appendable in
  mret {| filename := "particle.template";
          MainArgs := main;
          AppendableArgs := Some appendable;
          CommaAppendableArgs := None |}.

(** Species initialization *)
Definition template_speciesInitialization (a : InitArgs)
    (params : gmap string pyval) : result objectTemplate :=
  let comma : gmap string string := ∅ in
  let createManipulate_list : list string := [] in
  createManipulate_list ←
    (if bool_decide (density_profile a ≠ None) then
       text ← render_text CreateDensity params;
       mret (createManipulate_list ++ [text])
     else mret createManipulate_list);
  createManipulate_list ←
    (if ionizable (species a) then
       text ← render_text SetIonCharge params;
       mret (createManipulate_list ++ [text])
     else mret createManipulate_list);
  let comma :=
    if bool_decide (length createManipulate_list ≠ 0)
    then <["CreateManipulate" := str_join comma_LF createManipulate_list]> comma
    else comma in
  mret {| filename := "speciesInitialization.template";
          MainArgs := None;
          AppendableArgs := None;
          CommaAppendableArgs := Some comma |}.

(** Density profile *)
Definition template_density (a : InitArgs) (params : gmap string pyval)
  : result objectTemplate :=
  let main := if is_not_None (base_density a) then Some params else None in
  let appendable : gmap string string := ∅ in
  appendable ←
    match density_profile a with
    | Some profile =>
        type ← getitem profile (VStr "type");
        codelet ← getitem densityProfile type;
        text ← render_text codelet (dict_merge profile params);
        mret (<["densityProfile" := text]> appendable)
    | None => mret appendable
    end;
  mret {| filename := "density.template";
          MainArgs := main;
          AppendableArgs := Some appendable;
          CommaAppendableArgs := None |}.

(** [Particle.__init__]: the templates are built in the order of the
    source and listed in the order of [self.templates]. *)
Definition Particle_init (a : InitArgs) : result Particle :=
  params ← build_params a;
  t_species ← template_species params;
  t_speciesDefinition ← template_speciesDefinition a params;
  t_particle ← template_particle a params;
  t_speciesInitialization ← template_speciesInitialization a params;
  t_density ← template_density a params;
  mret {| self_name := name a;
          self_templates := [ t_species; t_particle; t_speciesDefinition;
                              t_speciesInitialization; t_density ] |}.

End Init.

End PogitParticle.

(** ** Concrete collaborators for examples *)

Module Examples.
Import Writer PogitParticle.
Import PrimFloat.

(** An object that is nothing but its list of templates. *)
#[export] Instance list_Templated : Templated (list objectTemplate) := id.

(** A template engine whose templates are their own text and render to
    it whatever the arguments. *)
Definition echo_mako : Mako :=
  {| Tmpl := string;
     mako_Template := Some;
     mako_render := λ template _, Some template |}.

(** A contribution that carries nothing but a file name. *)
Definition bare (fname : string) : objectTemplate :=
  {| filename := fname; MainArgs := None;
     AppendableArgs := None; CommaAppendableArgs := None |}.

Definition empty_world : world := {| disk := ∅; trace := [] |}.

(** An object whose single contribution supplies an empty fragment to
    a comma-joined list. *)
Definition empty_fragment : list objectTemplate :=
  [ {| filename := "speciesInitialization.template";
       MainArgs := None; AppendableArgs := None;
       CommaAppendableArgs := Some {[ "CreateManipulate" := "" ]} |} ].

(** An object whose contribution supplies the same key in both
    appendable dictionaries. *)
Definition both_buckets : list objectTemplate :=
  [ {| filename := "a.template";
       MainArgs := None;
       AppendableArgs := Some {[ "K" := "x" ]};
       CommaAppendableArgs := Some {[ "K" := "y" ]} |} ].

(** Two objects that both carry main arguments for one file. *)
Definition main_one : list objectTemplate :=
  [ {| filename := "grid.template";
       MainArgs := Some {[ "a" := VStr "1" ]};
       AppendableArgs := None; CommaAppendableArgs := None |} ].

Definition main_two_template : objectTemplate :=
  {| filename := "grid.template";
     MainArgs := Some {[ "a" := VStr "2" ]};
     AppendableArgs := None; CommaAppendableArgs := None |}.

Definition main_two : list objectTemplate := [ main_two_template ].

(** Two objects that both supply a manipulator to the particle file. *)
Definition object_A : list objectTemplate :=
  [ {| filename := "particle.template";
       MainArgs := None;
       AppendableArgs := Some {[ "Manipulators" := "X" ]};
       CommaAppendableArgs := None |} ].

Definition object_B : list objectTemplate :=
  [ {| filename := "particle.template";
       MainArgs := None;
       AppendableArgs := Some {[ "Manipulators" := "Y" ]};
       CommaAppendableArgs := None |};
    bare "run.template";
    bare "species.template" ].

(** A package directory that has the particle and the run template
    and misses the species template. *)
Definition package_templates : gmap string string :=
  {[ "pogit/templates/particle.template" := "particles";
     "pogit/templates/run.template" := "run" ]}.

(** The same directory with the species template. *)
Definition full_templates : gmap string string :=
  <["pogit/templates/species.template" := "species"]> package_templates.

(** What [echo_mako] renders for a target file of [full_templates]. *)
Definition package_output (fname : string) : string :=
  default "" (full_templates !! ("pogit/templates/" +:+ fname)).

(** Codelets, physical constants and a periodic table small enough to
    construct an electron and a nitrogen ion. *)
Definition sample_codelets : Codelets :=
  {| StartPosition := {[ "Random" := "random" ]};
     Manipulators := {[ "SetIonCharge" := "charge";
                        "Temperature" := "temperature" ]};
     speciesDefinition := {[ "electron" := "e"; "ion" := "i" ]};
     CreateDensity := "density"; SetIonCharge := "ionize";
     densityProfile := {[ "Gaussian" := "gaussian" ]};
     speciesNumericalParam := "numerical" |}.

Definition nitrogen : Element := {| mass := 14%float; atomic_number := 7 |}.

Definition sample_format (x : float) : string := "1.000000000000000e+00".

Definition sample_table (element : pyval) : option Element := Some nitrogen.
Definition sample_element_error (element : pyval) : exn :=
  ValueError "Element not found".

(** A table that finds no element. *)
Definition unknown_table (element : pyval) : option Element := None.

Definition sample_init : InitArgs → result Particle :=
  Particle_init (H := echo_mako) (H0 := sample_codelets)
    sample_format 1%float 1%float sample_table sample_element_error.

Definition sample_defaults : string → string → InitArgs :=
  default_args 1%float 1836%float.

Definition nobody : Particle := {| self_name := ""; self_templates := [] |}.

(** [Particle(name='Electrons', species='electron')] *)
Definition electrons_args : InitArgs := sample_defaults "Electrons" "electron".

Definition electrons : Particle :=
  match sample_init electrons_args with
  | Ok p => p
  | Raise _ => nobody
  end.

(** [Particle(name='Ions', species='ion')], which lacks the element *)
Definition bare_ions_args : InitArgs := sample_defaults "Ions" "ion".

(** [Particle(name='Ions', species='ion', element='Nitrogen',
              initial_charge=5, target_species=eons)] *)
Definition ions_args : InitArgs :=
  {| name := "Ions"; species := "ion";
     initial_positions := VTuple [VStr "Random"; VInt 2];
     typicalNppc := VInt 4;
     density_profile := None; base_density := VNone;
     relative_density := VFloat 1;
     element := VStr "Nitrogen"; initial_charge := VInt 5;
     mass_ratio := VFloat 1836; charge_ratio := VInt (-1);
     target_species := Some electrons; ionizer_polarization := VStr "Lin";
     initial_temperature := VNone;
     shape_order := 1; pusher := VStr "Boris";
     current_deposition := VStr "Esirkepov" |}.

Definition ions : Particle :=
  match sample_init ions_args with
  | Ok p => p
  | Raise _ => nobody
  end.

End Examples.

(** ** The Laser object *)

Module PogitLaser.

Import PrimFloat.

(** An instance of the class: [self.templates]. *)
Record Laser : Type := {
  laser_templates : list objectTemplate
}.


(** What the constructor can raise: the exceptions of [exn] and the
    [ZeroDivisionError] of a float division. *)
Inductive raised : Type :=
| Builtin (e : exn)
| ZeroDivisionError.

Inductive built (A : Type) : Type :=
| Built (a : A)
| Raises (r : raised).
Arguments Built {A} a.
Arguments Raises {A} r.

#[export] Instance built_ret : MRet built := @Built.
#[export] Instance built_bind : MBind built := λ A B k b,
  match b with
  | Built a => k a
  | Raises r => Raises r
  end.

Definition of_result {A} (r : result A) : built A :=
  match r with
  | Ok a => Built a
  | Raise e => Raises (Builtin e)
  end.

(** [x / y] on floats: Python raises where IEEE 754 gives an infinity
    or a NaN for a zero divisor. *)
Definition truediv (x y : float) : built float :=
  if (y =? 0)%float then Raises ZeroDivisionError else Built (x / y)%float.

(** The literal [1.17741] of the pulse length. *)
#[warnings="-inexact-float"]
Definition literal_1_17741 : float := 1.17741.

(** The dictionary of the polarisations. *)
Definition Polarisations : gmap string string :=
  {[ "x" := "LINEAR_X"; "z" := "LINEAR_Z"; "circ" := "CIRCULAR" ]}.

(** The arguments of [Laser.__init__]; the two lengths that the
    constructor divides are floats. *)
Record LaserArgs : Type := {
  a0 : pyval;
  ctau : float;
  waist : pyval;
  cdelay : float;
  iy_antenna : pyval;
  y_foc : pyval;
  profile : pyval;
  pol : pyval;
  CEP : pyval;
  wavelength : pyval;
  LaguerreModeNumber : pyval;
  LaguerreModes : list pyval
}.

Section Init.
Context `{Mako}.

(** [LaserProfile] of [pogit/codelets/laser.py] *)
Variable LaserProfile : gmap string string.
(** [scipy.constants.c] *)
Variable c : float.
(** [str(m)] *)
Variable py_str : pyval → string.

(** The arguments with the defaults of the signature. *)
#[warnings="-inexact-float"]
Definition laser_defaults (a0 : pyval) (ctau : float) (waist : pyval)
    (cdelay : float) (iy_antenna : pyval) : LaserArgs :=
  {| a0 := a0; ctau := ctau; waist := waist; cdelay := cdelay;
     iy_antenna := iy_antenna; y_foc := VInt 0;
     profile := VStr "Gaussian"; pol := VStr "x"; CEP := VFloat 0;
     wavelength := VFloat 0.8e-6; LaguerreModeNumber := VInt 0;
     LaguerreModes := [VFloat 1] |}.

(** The dictionary [params]. *)
Definition laser_params (a : LaserArgs) : built (gmap string pyval) :=
  let params : gmap string pyval := ∅ in
  let params := <["A0" := a0 a]> params in
  q ← truediv (ctau a) c;
  PULSE_LENGTH ← truediv q literal_1_17741;
  let params := <["PULSE_LENGTH" := VFloat PULSE_LENGTH]> params in
  let params := <["W0" := waist a]> params in
  let params := <["FOCUS_POS" := y_foc a]> params in
  q ← truediv (2 * cdelay a) c;
  PULSE_INIT ← truediv q PULSE_LENGTH;
  let params := <["PULSE_INIT" := VFloat PULSE_INIT]> params in
  let params := <["initPlaneY" := iy_antenna a]> params in
  let params := <["WAVE_LENGTH" := wavelength a]> params in
  Polarisation ← of_result (getitem Polarisations (pol a));
  let params := <["Polarisation" := VStr Polarisation]> params in
  let params := <["LASER_PHASE" := CEP a]> params in
  let params := <["MODENUMBER" := LaguerreModeNumber a]> params in
  mret (<["LAGUERREMODES" := VStr (str_join ", " (py_str <$> LaguerreModes a))]>
          params).

(** [Laser.__init__] *)
Definition Laser_init (a : LaserArgs) : built Laser :=
  params ← laser_params a;
  codelet ← of_result (getitem LaserProfile (profile a));
  text ← of_result (render_text codelet params);
  let template :=
    {| filename := "laser.template";
       MainArgs := Some {[ "laserProfile" := VStr text ]};
       AppendableArgs := None;
       CommaAppendableArgs := None |} in
  mret {| laser_templates := [ template ] |}.

End Init.

End PogitLaser.

(** ** More vocabulary for the statements about the pass *)

Module PassVocabulary.
Import Writer.

(** The path of the destination of a target file. *)
Definition dest_path (fname : string) : string :=
  (routed fname).1 +:+ (routed fname).2.

(** The world after the destination of [fname] has been opened and
    nothing has been written to it. *)
Definition truncated (fname : string) (w : world) : world :=
  {| disk := <[dest_path fname := ""]> (disk w);
     trace := trace w ++ [ EOpen (dest_path fname) ] |}.

(** The world after the files of [fl] have been written, one after
    the other, with the texts that [out] gives. *)
Definition writes (out : string → string) (fl : list string) (w : world)
  : world :=
  foldl (λ w f, written f (out f) w) w fl.


(** The names of the five files of a Particle, in the order of
    [self.templates]. *)
Definition particle_files : list string :=
  [ "species.template"; "particle.template"; "speciesDefinition.template";
    "speciesInitialization.template"; "density.template" ].

Section Outputs.
Context `{Mako} {Obj : Type} `{Templated Obj}.
Variable src_path : string.
Variable template_files : gmap string string.

(** The template of a target file loads. *)
Definition loads (fname : string) : bool :=
  match Template_from_file template_files (templatePath src_path +:+ fname) with
  | Ok _ => true
  | Raise _ => false
  end.

(** The text rendered for a target file, where there is one. *)
Definition output (objs : list Obj) (fname : string) : string :=
  match rendered src_path template_files objs fname with
  | Ok text => text
  | Raise _ => ""
  end.

End Outputs.

End PassVocabulary.

(** ** More concrete collaborators *)

Module MoreExamples.
Import Writer PogitParticle PogitLaser Examples.
Import PrimFloat.

(** An engine that compiles every text and fails to render the text
    ["broken"]. *)
Definition picky_mako : Mako :=
  {| Tmpl := string;
     mako_Template := Some;
     mako_render := λ template _,
       if bool_decide (template = "broken") then None else Some template |}.

(** The package of [package_templates] with a run template that does
    not render. *)
Definition broken_templates : gmap string string :=
  <["pogit/templates/run.template" := "broken"]> package_templates.

(** A world in which an earlier pass has left a run configuration. *)
Definition used_world : world :=
  {| disk := {[ "./etc/picongpu/run.cfg" := "old"; "./notes" := "mine" ]};
     trace := [] |}.

Definition sample_profiles : gmap string string :=
  {[ "Gaussian" := "gaussian" ]}.

Definition sample_str (v : pyval) : string := "1.0".

#[warnings="-inexact-float"]
Definition sample_laser : LaserArgs → built Laser :=
  Laser_init (H := echo_mako) sample_profiles 299792458%float sample_str.


(** The same with no duration. *)
#[warnings="-inexact-float"]
Definition still_laser_args : LaserArgs :=
  laser_defaults (VFloat 3) 0%float (VFloat 5e-6) 12e-6%float (VInt 16).

(** The same with a polarisation that does not exist. *)
#[warnings="-inexact-float"]
Definition skew_laser_args : LaserArgs :=
  {| a0 := VFloat 3; ctau := 4e-6; waist := VFloat 5e-6; cdelay := 12e-6;
     iy_antenna := VInt 16; y_foc := VInt 0;
     profile := VStr "Gaussian"; pol := VStr "y"; CEP := VFloat 0;
     wavelength := VFloat 0.8e-6; LaguerreModeNumber := VInt 0;
     LaguerreModes := [VFloat 1] |}.

(** Electrons of an order of shape that does not exist. *)
Definition shapeless_args : InitArgs :=
  {| name := "Electrons"; species := "electron";
     initial_positions := VNone; typicalNppc := VNone;
     density_profile := None; base_density := VNone;
     relative_density := VFloat 1;
     element := VNone; initial_charge := VInt 0;
     mass_ratio := VFloat 1836; charge_ratio := VInt (-1);
     target_species := None; ionizer_polarization := VStr "Circ";
     initial_temperature := VNone;
     shape_order := 5; pusher := VStr "Boris";
     current_deposition := VStr "Esirkepov" |}.

(** Nitrogen ions with an element and no target species. *)
Definition orphan_ions_args : InitArgs :=
  {| name := "Ions"; species := "ion";
     initial_positions := VNone; typicalNppc := VNone;
     density_profile := None; base_density := VNone;
     relative_density := VFloat 1;
     element := VStr "Nitrogen"; initial_charge := VInt 5;
     mass_ratio := VFloat 1836; charge_ratio := VInt (-1);
     target_species := None; ionizer_polarization := VStr "Lin";
     initial_temperature := VNone;
     shape_order := 1; pusher := VStr "Boris";
     current_deposition := VStr "Esirkepov" |}.



(** The two objects of [object_A] and [object_B] as one. *)
Definition object_AB : list objectTemplate := object_A ++ object_B.

End MoreExamples.

(** ** Properties of the Python primitives *)

Module PyFacts.

Lemma str_join_two (sep x y : string) :
  str_join sep [x; y] = x +:+ sep +:+ y.
Proof. reflexivity. Qed.

Lemma str_join_cons (sep x y : string) (l : list string) :
  str_join sep (x :: y :: l) = x +:+ sep +:+ str_join sep (y :: l).
Proof. reflexivity. Qed.

Lemma string_app_cons (c : ascii) (s t : string) :
  String c s +:+ t = String c (s +:+ t).
Proof. reflexivity. Qed.

Lemma startswith_app (p s : string) : startswith p (p +:+ s) = true.
Proof.
  induction p as [|c p IH]; [done |].
  rewrite string_app_cons. cbn [startswith].
  rewrite bool_decide_eq_true_2 by done. exact IH.
Qed.

Lemma str_drop_app (p s : string) : str_drop (String.length p) (p +:+ s) = s.
Proof.
  induction p as [|c p IH]; [done |].
  rewrite string_app_cons. exact IH.
Qed.

(** Jumping over [k] characters and resuming is resuming on the rest. *)
Lemma replace_from_skip (old new : string) (k : nat) (s : string) :
  replace_from old new k s = str_replace old new (str_drop k s).
Proof.
  revert s. induction k as [|k IH]; intros s.
  - by destruct s.
  - destruct s as [|c r]; simpl; [done | apply IH].
Qed.

(** The two equations of [str.replace]: at an occurrence of [old] the
    occurrence is replaced and the scan resumes behind it; elsewhere
    one character is copied. *)
Lemma str_replace_hit (old new s : string) :
  old ≠ "" →
  str_replace old new (old +:+ s) = new +:+ str_replace old new s.
Proof.
  intros Hold. destruct old as [|c old]; [done |].
  unfold str_replace at 1. rewrite string_app_cons at 1. cbn [replace_from].
  rewrite <- string_app_cons, startswith_app, replace_from_skip.
  replace (String.length (String c old) - 1) with (String.length old)
    by (cbn [String.length]; lia).
  by rewrite str_drop_app.
Qed.

Lemma str_replace_miss (old new : string) (c : ascii) (s : string) :
  startswith old (String c s) = false →
  str_replace old new (String c s) = String c (str_replace old new s).
Proof.
  intros Hmiss. unfold str_replace. cbn [replace_from]. by rewrite Hmiss.
Qed.

(** The leftmost occurrence of [old] is the one replaced first, and
    the scan resumes behind it. *)
Lemma str_replace_leftmost (old new pre post : string) :
  old ≠ "" →
  (∀ i, i < String.length pre → ¬ occurs_at old (pre +:+ old +:+ post) i) →
  str_replace old new (pre +:+ old +:+ post) =
  pre +:+ new +:+ str_replace old new post.
Proof.
  intros Hold. induction pre as [|c pre IH]; intros Hleft.
  - exact (str_replace_hit old new post Hold).
  - rewrite !string_app_cons. rewrite str_replace_miss.
    + f_equal. apply IH. intros i Hi. apply (Hleft (S i)).
      cbn [String.length]. lia.
    + apply not_true_is_false. rewrite <- string_app_cons.
      apply (Hleft 0). cbn [String.length]. lia.
Qed.

(** A string in which [old] does not occur is left as it is. *)
Lemma str_replace_absent (old new s : string) :
  (∀ i, ¬ occurs_at old s i) → str_replace old new s = s.
Proof.
  induction s as [|c s IH]; intros Habs; [done |].
  rewrite str_replace_miss.
  - f_equal. apply IH. intros i. apply (Habs (S i)).
  - apply not_true_is_false. apply (Habs 0).
Qed.

End PyFacts.

(** ** Properties of the merge *)

Module MergeFacts.
Import Writer.

Lemma append_arg_lookup (arg frag : string) (acc : gmap string (list string))
    (k : string) :
  append_arg arg frag acc !! k =
  if decide (arg = k) then Some (default [] (acc !! arg) ++ [frag])
  else acc !! k.
Proof.
  unfold append_arg. rewrite lookup_alter.
  destruct (decide (arg = k)) as [->|Hne].
  - case_bool_decide as Hd.
    + apply not_elem_of_dom in Hd. by rewrite lookup_insert_eq, Hd.
    + apply elem_of_dom in Hd. destruct Hd as [l Hl].
      by rewrite Hl.
  - case_bool_decide; [by rewrite lookup_insert_ne | done].
Qed.

(** One contribution appends its fragment for [k], if it has one, to
    the list of [k], which starts empty. *)
Lemma append_args_lookup (d : gmap string string)
    (acc : gmap string (list string)) (k : string) :
  append_args d acc !! k =
  match d !! k with
  | Some frag => Some (default [] (acc !! k) ++ [frag])
  | None => acc !! k
  end.
Proof.
  unfold append_args. revert k.
  apply (map_fold_weak_ind (λ r (m : gmap string string), ∀ k,
    r !! k = match m !! k with
             | Some frag => Some (default [] (acc !! k) ++ [frag])
             | None => acc !! k
             end)).
  - intros k. by rewrite lookup_empty.
  - intros i x m r Hi IH k. rewrite append_arg_lookup.
    destruct (decide (i = k)) as [->|Hne].
    + by rewrite lookup_insert_eq, IH, Hi.
    + rewrite lookup_insert_ne by done. apply IH.
Qed.

Lemma no_empty_list_empty : no_empty_list ∅.
Proof. intros k l. by rewrite lookup_empty. Qed.

Lemma append_args_no_empty_list (d : gmap string string)
    (acc : gmap string (list string)) :
  no_empty_list acc → no_empty_list (append_args d acc).
Proof.
  intros Hacc k l. rewrite append_args_lookup.
  destruct (d !! k) as [frag|]; [| apply Hacc].
  intros [= <-]. by destruct (default [] (acc !! k)).
Qed.

Lemma bound_to_lookup (m : gmap string (list string)) (k : string) :
  no_empty_list m → m !! k = bound_to (default [] (m !! k)).
Proof.
  intros Hm. destruct (m !! k) as [l|] eqn:Hl; [| done].
  simpl. apply Hm in Hl. by destruct l.
Qed.

Lemma fragments_cons (src_of : objectTemplate → option (gmap string string))
    (K : string) (t : objectTemplate) (cs : list objectTemplate) :
  fragments src_of K (t :: cs) =
  match src_of t with
  | Some d =>
      match d !! K with
      | Some frag => frag :: fragments src_of K cs
      | None => fragments src_of K cs
      end
  | None => fragments src_of K cs
  end.
Proof.
  unfold fragments. cbn [omap list_omap].
  destruct (src_of t) as [d|]; [| done]. cbn [mbind option_bind].
  by destruct (d !! K).
Qed.

(** The two appendable dictionaries are gathered alike: [acc_of]
    selects the dictionary of the buckets and [src_of] the one of a
    contribution. *)
Section Appendable.
Variable acc_of : buckets → gmap string (list string).
Variable src_of : objectTemplate → option (gmap string string).
Hypothesis gather_hit : ∀ b t,
  acc_of (gather_template (filename t) b t) =
  match src_of t with
  | Some d => append_args d (acc_of b)
  | None => acc_of b
  end.

Lemma gather_template_miss (fname : string) (b : buckets) (t : objectTemplate) :
  filename t ≠ fname → gather_template fname b t = b.
Proof. intros Hne. unfold gather_template. by rewrite bool_decide_eq_true_2. Qed.

Lemma gather_templates_fragments (fname K : string) (ts : list objectTemplate)
    (b : buckets) :
  default [] (acc_of (foldl (gather_template fname) b ts) !! K) =
  default [] (acc_of b !! K)
    ++ fragments src_of K (filter (λ t, filename t = fname) ts).
Proof.
  revert b. induction ts as [|t ts IH]; intros b.
  - by rewrite app_nil_r.
  - cbn [foldl]. rewrite IH. rewrite filter_cons.
    destruct (decide (filename t = fname)) as [<-|Hne].
    + rewrite gather_hit, fragments_cons.
      destruct (src_of t) as [d|]; [| done].
      rewrite append_args_lookup.
      destruct (d !! K) as [frag|]; [| done].
      simpl. by rewrite <- app_assoc.
    + by rewrite gather_template_miss.
Qed.

Lemma gather_templates_no_empty_list (fname : string)
    (ts : list objectTemplate) (b : buckets) :
  no_empty_list (acc_of b) →
  no_empty_list (acc_of (foldl (gather_template fname) b ts)).
Proof.
  revert b. induction ts as [|t ts IH]; intros b Hb; [done |].
  cbn [foldl]. apply IH.
  destruct (decide (filename t = fname)) as [<-|Hne].
  - rewrite gather_hit. destruct (src_of t); [| done].
    by apply append_args_no_empty_list.
  - by rewrite gather_template_miss.
Qed.

End Appendable.

Lemma gather_hit_appendable (b : buckets) (t : objectTemplate) :
  templateAppendableArgs (gather_template (filename t) b t) =
  match AppendableArgs t with
  | Some d => append_args d (templateAppendableArgs b)
  | None => templateAppendableArgs b
  end.
Proof. unfold gather_template. by rewrite bool_decide_eq_false_2 by auto. Qed.

Lemma gather_hit_comma (b : buckets) (t : objectTemplate) :
  templateCommaAppendableArgs (gather_template (filename t) b t) =
  match CommaAppendableArgs t with
  | Some d => append_args d (templateCommaAppendableArgs b)
  | None => templateCommaAppendableArgs b
  end.
Proof. unfold gather_template. by rewrite bool_decide_eq_false_2 by auto. Qed.

Lemma gather_hit_main (b : buckets) (t : objectTemplate) :
  templateMainArgs (gather_template (filename t) b t) =
  default (templateMainArgs b) (MainArgs t).
Proof.
  unfold gather_template. rewrite bool_decide_eq_false_2 by auto.
  by destruct (MainArgs t).
Qed.

(** The main arguments after a run of contributions are those of the
    last contribution to the file that carries any. *)
Lemma gather_templates_main (fname : string) (ts : list objectTemplate)
    (b : buckets) :
  templateMainArgs (foldl (gather_template fname) b ts) =
  default (templateMainArgs b)
          (last (omap MainArgs (filter (λ t, filename t = fname) ts))).
Proof.
  revert b. induction ts as [|t ts IH]; intros b; [done |].
  cbn [foldl]. rewrite IH, filter_cons.
  destruct (decide (filename t = fname)) as [<-|Hne].
  - rewrite gather_hit_main. cbn [omap list_omap].
    destruct (MainArgs t) as [m|]; [| done].
    rewrite last_cons. cbn [default].
    by destruct (last _).
  - by rewrite gather_template_miss.
Qed.

(** The render context, key by key. *)
Lemma template_args_lookup (b : buckets) (K : string) :
  template_args b !! K =
  match templateCommaAppendableArgs b !! K with
  | Some l => Some (join_comma l)
  | None =>
      match templateAppendableArgs b !! K with
      | Some l => Some (join_appendable l)
      | None => templateMainArgs b !! K
      end
  end.
Proof.
  unfold template_args, dict_merge. rewrite !lookup_union, !lookup_fmap.
  destruct (templateCommaAppendableArgs b !! K),
           (templateAppendableArgs b !! K),
           (templateMainArgs b !! K); done.
Qed.

Lemma join_comma_nonempty (l : list string) :
  l ≠ [] → join_comma l = VStr (str_join comma_LF l).
Proof.
  intros Hl. unfold join_comma. rewrite bool_decide_eq_true_2; [done |].
  destruct l; [done | simpl; lia].
Qed.

End MergeFacts.

(** ** Properties of the discovery *)

Module DiscoveryFacts.
Import Writer.

Lemma first_seen_elem_of (l : list string) (x : string) :
  x ∈ first_seen l ↔ x ∈ l.
Proof.
  induction l as [|y l IH]; [done |].
  cbn [first_seen]. rewrite !elem_of_cons, list_elem_of_filter, IH.
  destruct (decide (x = y)) as [->|Hne]; [split; by left |].
  split; [intros [?|[_ ?]] | intros [?|?]]; (by left) || (by right).
Qed.

Lemma first_seen_NoDup (l : list string) : NoDup (first_seen l).
Proof.
  induction l as [|y l IH]; [constructor |].
  cbn [first_seen]. constructor.
  - rewrite list_elem_of_filter. by intros [? _].
  - by apply NoDup_filter.
Qed.

Lemma filter_not_in_nil (l : list string) : filter (λ x, x ∉ []) l = l.
Proof.
  induction l as [|x l IH]; [done |].
  rewrite filter_cons_True by apply not_elem_of_nil. by rewrite IH.
Qed.

(** The list under construction grows by the names not seen yet, each
    at its first occurrence. *)
Lemma list_file_first_seen (ts : list objectTemplate) (acc : list string) :
  foldl list_file acc ts =
  acc ++ filter (λ x, x ∉ acc) (first_seen (filename <$> ts)).
Proof.
  revert acc. induction ts as [|t ts IH]; intros acc.
  - by rewrite app_nil_r.
  - cbn [foldl fmap list_fmap first_seen]. rewrite IH. unfold list_file.
    rewrite filter_cons. case_bool_decide as Hin.
    + rewrite decide_True by done. rewrite <- app_assoc. cbn [app].
      do 2 f_equal. rewrite list_filter_filter.
      apply list_filter_iff. intros x.
      by rewrite not_elem_of_app, list_elem_of_singleton.
    + rewrite decide_False by (intros Hn; apply Hn, Hin). f_equal.
      rewrite list_filter_filter. apply list_filter_iff. intros x.
      split; [| by intros [? _]]. intros Hx. split; [done |].
      by intros ->.
Qed.

End DiscoveryFacts.

(** ** Properties of the pass *)

Module PassFacts.
Import Writer MergeFacts DiscoveryFacts.

Section Pass.
Context `{Mako} {Obj : Type} `{Templated Obj}.
Variable src_path : string.
Variable template_files : gmap string string.

Local Abbreviation rendered := (rendered src_path template_files).
Local Abbreviation render_file := (render_file src_path template_files).

(** A loop nested in a loop over the objects is one loop over all
    their templates. *)
Lemma nested_loops {B} (body : B → objectTemplate → B) (objs : list Obj) (b : B) :
  foldl (λ b obj, foldl body b (templates obj)) b objs =
  foldl body b (all_templates objs).
Proof.
  revert b. induction objs as [|obj objs IH]; intros b; [done |].
  unfold all_templates. cbn [foldl mbind list_bind]. rewrite foldl_app.
  apply IH.
Qed.

Lemma list_files_first_seen (objs : list Obj) :
  list_files objs = first_seen (filename <$> all_templates objs).
Proof.
  unfold list_files. rewrite nested_loops, list_file_first_seen.
  cbn [app]. apply filter_not_in_nil.
Qed.

Lemma gather_main (objs : list Obj) (fname : string) :
  templateMainArgs (gather objs fname) =
  default ∅ (last (omap MainArgs (contributions objs fname))).
Proof. unfold gather. rewrite nested_loops. apply gather_templates_main. Qed.

Lemma gather_appendable (objs : list Obj) (fname K : string) :
  templateAppendableArgs (gather objs fname) !! K =
  bound_to (fragments AppendableArgs K (contributions objs fname)).
Proof.
  unfold gather. rewrite nested_loops.
  rewrite bound_to_lookup.
  - rewrite (gather_templates_fragments _ AppendableArgs gather_hit_appendable).
    done.
  - apply (gather_templates_no_empty_list _ AppendableArgs gather_hit_appendable).
    apply no_empty_list_empty.
Qed.

Lemma gather_comma (objs : list Obj) (fname K : string) :
  templateCommaAppendableArgs (gather objs fname) !! K =
  bound_to (fragments CommaAppendableArgs K (contributions objs fname)).
Proof.
  unfold gather. rewrite nested_loops.
  rewrite bound_to_lookup.
  - rewrite (gather_templates_fragments _ CommaAppendableArgs gather_hit_comma).
    done.
  - apply (gather_templates_no_empty_list _ CommaAppendableArgs gather_hit_comma).
    apply no_empty_list_empty.
Qed.

(** One iteration of the loop over [FilesList] whose template loads
    and renders. *)
Lemma render_file_rendered (objs : list Obj) (fname text : string) (w : world) :
  rendered objs fname = Ok text →
  render_file objs fname w = (Ok (), written fname text w).
Proof.
  unfold Writer.rendered, Writer.render_file, written, routed, wrote.
  unfold mbind, IO_bind, result_bind, lift.
  destruct (Template_from_file _ _) as [template|e]; [| done].
  cbn [rbind]. intros ->.
  case_bool_decide; cbn; rewrite lookup_insert_eq, insert_insert_eq;
    unfold print; cbn; by rewrite <- !app_assoc.
Qed.

(** One iteration whose template file is missing: the exception
    escapes before anything is opened. *)
Lemma render_file_missing (objs : list Obj) (fname : string) (w : world) :
  template_files !! (templatePath src_path +:+ fname) = None →
  render_file objs fname w =
  (Raise (FileNotFoundError (templatePath src_path +:+ fname)), w).
Proof.
  intros Hmiss. unfold Writer.render_file, Template_from_file.
  unfold mbind, IO_bind, result_bind, lift. by rewrite Hmiss.
Qed.

(** The loop over files that all load and render. *)
Lemma for_each_rendered (objs : list Obj) (out : string → string)
    (fl : list string) (w : world) :
  (∀ f, f ∈ fl → rendered objs f = Ok (out f)) →
  for_each fl (render_file objs) w =
  (Ok (), foldl (λ w f, written f (out f) w) w fl).
Proof.
  revert w. induction fl as [|f fl IH]; intros w Hok; [done |].
  cbn [for_each foldl]. unfold mbind, IO_bind.
  rewrite (render_file_rendered _ _ (out f)) by (apply Hok; left).
  apply IH. intros g Hg. apply Hok. by right.
Qed.

(** The loop stops at the first iteration that raises, in the world
    that this iteration leaves. *)
Lemma for_each_raise (objs : list Obj) (out : string → string)
    (pre post : list string) (f : string) (e : exn) (w w' : world) :
  (∀ g, g ∈ pre → rendered objs g = Ok (out g)) →
  render_file objs f (foldl (λ w g, written g (out g) w) w pre) = (Raise e, w') →
  for_each (pre ++ f :: post) (render_file objs) w = (Raise e, w').
Proof.
  revert w. induction pre as [|g pre IH]; intros w Hok Hf.
  - cbn [app for_each]. unfold mbind, IO_bind. cbn [foldl] in Hf.
    by rewrite Hf.
  - cbn [app for_each]. unfold mbind, IO_bind.
    rewrite (render_file_rendered _ _ (out g)) by (apply Hok; left).
    apply IH; [| exact Hf]. intros g' Hg'. apply Hok. by right.
Qed.

End Pass.

End PassFacts.

(** ** The aggregation and rendering pass, claim by claim *)

Module WriterSpec.
Import Writer PyFacts MergeFacts DiscoveryFacts PassFacts Examples.

(** The reports and writes of a successful run over [fl] follow [fl]
    file by file. *)
Lemma trace_written (out : string → string) (fl : list string) (w : world) :
  trace (foldl (λ w f, written f (out f) w) w fl) =
  trace w ++ (fl ≫= λ f, [ EOpen ((routed f).1 +:+ (routed f).2);
                           EWrite ((routed f).1 +:+ (routed f).2) (out f);
                           EPrint (routed f).2 ]).
Proof.
  revert w. induction fl as [|f fl IH]; intros w.
  - by rewrite app_nil_r.
  - cbn [foldl mbind list_bind]. rewrite IH. unfold written, wrote.
    cbn [trace]. by rewrite <- app_assoc.
Qed.

Lemma omap_all_None {A B} (f : A → option B) (l : list A) :
  Forall (λ x, f x = None) l → omap f l = [].
Proof.
  induction 1 as [|x l Hx _ IH]; [done |].
  cbn [omap list_omap]. by rewrite Hx.
Qed.

Section Pass.
Context `{Mako} {Obj : Type} `{Templated Obj}.
Variable src_path : string.
Variable template_files : gmap string string.

Local Abbreviation rendered := (rendered src_path template_files).
Local Abbreviation render_file := (render_file src_path template_files).
Local Abbreviation WriteSimulationFiles :=
  (WriteSimulationFiles src_path template_files).

(** C1, as the code has it.  For a target file and a key [K]: when no
    contribution to the file supplies [K] under [CommaAppendableArgs],
    the comma-appendable dictionary does not bind [K], and the render
    context binds [K] only as the appendable or the main arguments do;
    when some contribution supplies [K], the render context binds [K]
    to the fragments joined by a comma and a newline, whether or not
    the joined text is empty. *)
Theorem comma_key_bound_when_supplied (objs : list Obj) (fname K : string) :
  let frags := fragments CommaAppendableArgs K (contributions objs fname) in
  let b := gather objs fname in
  (frags = [] →
     templateCommaAppendableArgs b !! K = None ∧
     template_args b !! K =
       dict_merge (templateMainArgs b)
                  (join_appendable <$> templateAppendableArgs b) !! K) ∧
  (frags ≠ [] →
     template_args b !! K = Some (VStr (str_join comma_LF frags))).
Proof.
  intros frags b. pose proof (gather_comma objs fname K) as Hc.
  fold frags b in Hc. split.
  - intros Hnil. rewrite Hnil in Hc. split; [exact Hc |].
    unfold template_args, dict_merge at 1.
    rewrite lookup_union_r; [done |]. by rewrite lookup_fmap, Hc.
  - intros Hne. rewrite template_args_lookup, Hc.
    destruct frags as [|x l]; [done |]. cbn [bound_to].
    by rewrite join_comma_nonempty.
Qed.

(** C2, as the code has it.  For a target file and a key [K] that the
    contributions supply under [AppendableArgs] with the fragments
    [f1 .. fn], in the order of the objects: the appendable dictionary
    binds [K] to [f1 + "\n" + ... + "\n" + fn], and so does the render
    context unless a contribution to the file supplies [K] under
    [CommaAppendableArgs] too, in which case the render context binds
    [K] to the comma-joined fragments instead. *)
Theorem appendable_fragments_joined (objs : list Obj) (fname K : string) :
  let frags := fragments AppendableArgs K (contributions objs fname) in
  let commas := fragments CommaAppendableArgs K (contributions objs fname) in
  let b := gather objs fname in
  frags ≠ [] →
  join_appendable <$> templateAppendableArgs b !! K
    = Some (VStr (str_join LF frags)) ∧
  (commas = [] → template_args b !! K = Some (VStr (str_join LF frags))) ∧
  (commas ≠ [] → template_args b !! K = Some (VStr (str_join comma_LF commas))).
Proof.
  intros frags commas b Hne.
  pose proof (gather_appendable objs fname K) as Ha.
  pose proof (gather_comma objs fname K) as Hc.
  fold frags b in Ha. fold commas b in Hc.
  assert (templateAppendableArgs b !! K = Some frags) as Ha'.
  { rewrite Ha. by destruct frags. }
  split; [by rewrite Ha' |]. split.
  - intros Hnil. rewrite Hnil in Hc.
    by rewrite template_args_lookup, Hc, Ha'.
  - intros Hcne. rewrite template_args_lookup, Hc.
    destruct commas as [|x l]; [done |]. cbn [bound_to].
    by rewrite join_comma_nonempty.
Qed.

(** C3.  When the contributions to a target file are [before], then
    [c], then [after], where [c] carries the main arguments [m] and no
    contribution of [after] carries any, the accumulated main
    arguments are [m], whatever the contributions of [before] carry. *)
Theorem main_args_last_contribution_wins (objs : list Obj) (fname : string)
    (before after : list objectTemplate) (c : objectTemplate)
    (m : gmap string pyval) :
  contributions objs fname = before ++ c :: after →
  MainArgs c = Some m →
  Forall (λ t, MainArgs t = None) after →
  templateMainArgs (gather objs fname) = m.
Proof.
  intros Hcs Hc Hafter. rewrite gather_main, Hcs, omap_app.
  cbn [omap list_omap]. rewrite Hc.
  by rewrite (omap_all_None _ _ Hafter), last_snoc.
Qed.

(** C4.  The files listed by the discovery are the distinct file names
    of all contributions in the order of their first occurrences
    (objects in the order given, templates in the order of each
    object's list); and when each of them loads and renders, the pass
    ends normally having opened, written and reported each listed file
    exactly once, in that order. *)
Theorem files_written_once_in_first_seen_order (objs : list Obj)
    (out : string → string) (w : world) :
  let FilesList := list_files objs in
  (∀ f, f ∈ FilesList → rendered objs f = Ok (out f)) →
  FilesList = first_seen (filename <$> all_templates objs) ∧
  NoDup FilesList ∧
  (∀ f, f ∈ FilesList ↔
        ∃ obj t, obj ∈ objs ∧ t ∈ templates obj ∧ filename t = f) ∧
  ∃ w', WriteSimulationFiles objs w = (Ok (), w') ∧
        w' = foldl (λ w f, written f (out f) w) w FilesList ∧
        trace w' =
          trace w ++
          (FilesList ≫= λ f, [ EOpen ((routed f).1 +:+ (routed f).2);
                               EWrite ((routed f).1 +:+ (routed f).2) (out f);
                               EPrint (routed f).2 ]).
Proof.
  intros FilesList Hok.
  assert (FilesList = first_seen (filename <$> all_templates objs)) as Hfl
    by apply list_files_first_seen.
  split; [exact Hfl |]. split; [rewrite Hfl; apply first_seen_NoDup |]. split.
  - intros f. rewrite Hfl, first_seen_elem_of, list_elem_of_fmap.
    unfold all_templates. split.
    + intros (t & -> & Ht). apply list_elem_of_bind in Ht as (obj & Ht & Hobj).
      by exists obj, t.
    + intros (obj & t & Hobj & Ht & <-). exists t. split; [done |].
      apply list_elem_of_bind. by exists obj.
  - eexists. split; [| split; [reflexivity |]].
    + unfold Writer.WriteSimulationFiles. by apply for_each_rendered.
    + apply trace_written.
Qed.

(** C5.  A target file whose template loads and renders is written
    under the run-configuration directory, with ['template'] replaced
    by ['cfg'] in its name, when the text before its first dot is
    ['run'], and under the parameter directory, with ['template']
    replaced by ['param'], otherwise; the replacement rewrites the
    leftmost occurrence and goes on behind it, and leaves a name
    without occurrence as it is. *)
Theorem routing_of_target_file (objs : list Obj) (fname text : string)
    (w : world) :
  rendered objs fname = Ok text →
  (first_segment fname = "run" →
     render_file objs fname w =
     (Ok (), wrote path_etc (str_replace "template" "cfg" fname) text w)) ∧
  (first_segment fname ≠ "run" →
     render_file objs fname w =
     (Ok (), wrote path_include (str_replace "template" "param" fname) text w)) ∧
  routed "run.something.template" = (path_etc, "run.something.cfg") ∧
  routed "species.template" = (path_include, "species.param") ∧
  (∀ new pre post,
     (∀ i, i < String.length pre →
           ¬ occurs_at "template" (pre +:+ "template" +:+ post) i) →
     str_replace "template" new (pre +:+ "template" +:+ post) =
     pre +:+ new +:+ str_replace "template" new post) ∧
  (∀ new s, (∀ i, ¬ occurs_at "template" s i) →
            str_replace "template" new s = s).
Proof.
  intros Hok. repeat split.
  - intros Hrun. rewrite (render_file_rendered _ _ _ _ text) by done.
    unfold written, routed. by rewrite bool_decide_eq_true_2.
  - intros Hrun. rewrite (render_file_rendered _ _ _ _ text) by done.
    unfold written, routed. by rewrite bool_decide_eq_false_2.
  - intros new pre post. by apply str_replace_leftmost.
  - intros new s. apply str_replace_absent.
Qed.

(** C6.  The render context of a target file binds exactly the keys of
    the three merged dictionaries; a key of the comma-appendable
    dictionary is bound to its joined fragments, a key of the
    appendable dictionary that is not a comma-appendable key to its
    joined fragments, and any other key as the main arguments bind
    it. *)
Theorem render_context_precedence (objs : list Obj) (fname K : string) :
  let b := gather objs fname in
  dom (template_args b) =
    dom (templateMainArgs b) ∪ dom (templateAppendableArgs b)
      ∪ dom (templateCommaAppendableArgs b) ∧
  (∀ l, templateCommaAppendableArgs b !! K = Some l →
        template_args b !! K = Some (VStr (str_join comma_LF l))) ∧
  (∀ l, templateCommaAppendableArgs b !! K = None →
        templateAppendableArgs b !! K = Some l →
        template_args b !! K = Some (VStr (str_join LF l))) ∧
  (templateCommaAppendableArgs b !! K = None →
   templateAppendableArgs b !! K = None →
   template_args b !! K = templateMainArgs b !! K).
Proof.
  intros b. split; [| split; [| split]].
  - unfold template_args, dict_merge. rewrite !dom_union_L, !dom_fmap_L.
    apply set_eq. intros x. rewrite !elem_of_union. tauto.
  - intros l Hl. rewrite template_args_lookup, Hl.
    rewrite join_comma_nonempty; [done |].
    pose proof (gather_comma objs fname K) as Hc. fold b in Hc.
    rewrite Hl in Hc. intros ->.
    by destruct (fragments _ _ _).
  - intros l Hc Ha. by rewrite template_args_lookup, Hc, Ha.
  - intros Hc Ha. by rewrite template_args_lookup, Hc, Ha.
Qed.

(** C7.  When the files listed by the discovery are [pre], then [f],
    then [post], every file of [pre] loads and renders and the
    template file of [f] does not exist, the pass ends with the
    exception of the missing file, in the world that the writes of
    [pre] have left: the files of [pre] are on disk as they were
    written, and nothing is opened, written or reported for [f] or for
    a file of [post]. *)
Theorem missing_template_aborts_pass (objs : list Obj) (out : string → string)
    (pre post : list string) (f : string) (w : world) :
  list_files objs = pre ++ f :: post →
  (∀ g, g ∈ pre → rendered objs g = Ok (out g)) →
  template_files !! (templatePath src_path +:+ f) = None →
  ∃ w', WriteSimulationFiles objs w =
          (Raise (FileNotFoundError (templatePath src_path +:+ f)), w') ∧
        w' = foldl (λ w g, written g (out g) w) w pre ∧
        trace w' =
          trace w ++
          (pre ≫= λ g, [ EOpen ((routed g).1 +:+ (routed g).2);
                         EWrite ((routed g).1 +:+ (routed g).2) (out g);
                         EPrint (routed g).2 ]).
Proof.
  intros Hfl Hpre Hmiss. eexists. split; [| split; [reflexivity |]].
  - unfold Writer.WriteSimulationFiles. rewrite Hfl.
    apply (for_each_raise _ _ _ out); [done |].
    by apply render_file_missing.
  - apply trace_written.
Qed.

End Pass.

End WriterSpec.

(** ** The pass on concrete objects *)

Module WriterExamples.
Import Writer Examples WriterSpec.

(** C1 at an object that supplies a fragment: the key is bound. *)
Lemma comma_key_bound_when_supplied_witness :
  fragments CommaAppendableArgs "CreateManipulate"
    (contributions [empty_fragment] "speciesInitialization.template") ≠ [] ∧
  template_args (gather [empty_fragment] "speciesInitialization.template")
    !! "CreateManipulate" = Some (VStr "").
Proof.
  split; [done |].
  refine (eq_trans (proj2 (comma_key_bound_when_supplied
                             [empty_fragment] "speciesInitialization.template"
                             "CreateManipulate") _) _);
    [done | reflexivity].
Defined.

(** C1 fails as it is stated: a single empty fragment joins to the
    empty string, and the key is in the render context all the same,
    bound to the empty string. *)
Lemma empty_comma_join_is_not_dropped :
  let cs := contributions [empty_fragment] "speciesInitialization.template" in
  let context :=
    template_args (gather [empty_fragment] "speciesInitialization.template") in
  str_join comma_LF (fragments CommaAppendableArgs "CreateManipulate" cs) = "" ∧
  context !! "CreateManipulate" = Some (VStr "") ∧
  "CreateManipulate" ∈ dom context.
Proof.
  split; [reflexivity |]. split; [reflexivity |].
  apply elem_of_dom. by exists (VStr "").
Defined.

(** C2 at the two objects that supply a manipulator. *)
Lemma appendable_fragments_joined_witness :
  fragments AppendableArgs "Manipulators"
    (contributions [object_A; object_B] "particle.template") ≠ [] ∧
  fragments CommaAppendableArgs "Manipulators"
    (contributions [object_A; object_B] "particle.template") = [] ∧
  template_args (gather [object_A; object_B] "particle.template")
    !! "Manipulators" = Some (VStr ("X" +:+ LF +:+ "Y")).
Proof.
  split; [done |]. split; [reflexivity |].
  refine (eq_trans (proj1 (proj2 (appendable_fragments_joined
                                    [object_A; object_B] "particle.template"
                                    "Manipulators" _)) _) _);
    [done | reflexivity | reflexivity].
Defined.

(** C2 fails as it is stated: a key supplied in both appendable
    dictionaries is bound to the comma-joined fragments, not to the
    newline-joined ones. *)
Lemma appendable_key_shadowed_by_comma_key :
  let cs := contributions [both_buckets] "a.template" in
  let context := template_args (gather [both_buckets] "a.template") in
  fragments AppendableArgs "K" cs = ["x"] ∧
  context !! "K" = Some (VStr "y") ∧
  context !! "K" ≠ Some (VStr (str_join LF (fragments AppendableArgs "K" cs))).
Proof. split; [reflexivity |]. split; [reflexivity | discriminate]. Defined.

(** C3 at two objects with main arguments: the second wins. *)
Lemma main_args_last_contribution_wins_witness :
  templateMainArgs (gather [main_one; main_two] "grid.template")
  = {[ "a" := VStr "2" ]}.
Proof.
  apply (main_args_last_contribution_wins [main_one; main_two] "grid.template"
           main_one [] main_two_template).
  - reflexivity.
  - reflexivity.
  - constructor.
Defined.

(** C4 at the two objects and a package that has all their files. *)
Lemma files_written_once_in_first_seen_order_witness :
  list_files [object_A; object_B]
  = ["particle.template"; "run.template"; "species.template"] ∧
  ∃ w', WriteSimulationFiles (H := echo_mako) "pogit" full_templates
          [object_A; object_B] empty_world = (Ok (), w') ∧
        trace w' =
        [ EOpen "./include/picongpu/param/particle.param";
          EWrite "./include/picongpu/param/particle.param" "particles";
          EPrint "particle.param";
          EOpen "./etc/picongpu/run.cfg";
          EWrite "./etc/picongpu/run.cfg" "run";
          EPrint "run.cfg";
          EOpen "./include/picongpu/param/species.param";
          EWrite "./include/picongpu/param/species.param" "species";
          EPrint "species.param" ].
Proof.
  split; [reflexivity |].
  destruct (files_written_once_in_first_seen_order (H := echo_mako)
              "pogit" full_templates [object_A; object_B]
              package_output empty_world)
    as (_ & _ & _ & w' & Hrun & _ & Htrace).
  - apply Forall_forall.
    replace (list_files [object_A; object_B])
      with ["particle.template"; "run.template"; "species.template"]
      by reflexivity.
    repeat constructor.
  - exists w'. split; [exact Hrun |]. rewrite Htrace. reflexivity.
Defined.

(** C5 at the run template of the package. *)
Lemma routing_of_target_file_witness :
  first_segment "run.template" = "run" ∧
  render_file (H := echo_mako) "pogit" package_templates
    [object_B] "run.template" empty_world
  = (Ok (), wrote "./etc/picongpu/" "run.cfg" "run" empty_world).
Proof.
  split; [reflexivity |].
  refine (proj1 (routing_of_target_file (H := echo_mako)
                   "pogit" package_templates [object_B] "run.template" "run"
                   empty_world _) _); reflexivity.
Defined.

(** C6 at a key of both appendable dictionaries. *)
Lemma render_context_precedence_witness :
  templateCommaAppendableArgs (gather [both_buckets] "a.template") !! "K"
  = Some ["y"] ∧
  templateAppendableArgs (gather [both_buckets] "a.template") !! "K"
  = Some ["x"] ∧
  template_args (gather [both_buckets] "a.template") !! "K" = Some (VStr "y").
Proof.
  split; [reflexivity |]. split; [reflexivity |].
  refine (proj1 (proj2 (render_context_precedence
                          [both_buckets] "a.template" "K")) ["y"] _).
  reflexivity.
Defined.

(** C7 at the two objects and a package that misses the species
    template, the last of the three files. *)
Lemma missing_template_aborts_pass_witness :
  ∃ w', WriteSimulationFiles (H := echo_mako) "pogit" package_templates
          [object_A; object_B] empty_world
        = (Raise (FileNotFoundError "pogit/templates/species.template"), w') ∧
        disk w' = {[ "./include/picongpu/param/particle.param" := "particles";
                     "./etc/picongpu/run.cfg" := "run" ]} ∧
        trace w' =
        [ EOpen "./include/picongpu/param/particle.param";
          EWrite "./include/picongpu/param/particle.param" "particles";
          EPrint "particle.param";
          EOpen "./etc/picongpu/run.cfg";
          EWrite "./etc/picongpu/run.cfg" "run";
          EPrint "run.cfg" ].
Proof.
  destruct (missing_template_aborts_pass (H := echo_mako)
              "pogit" package_templates [object_A; object_B] package_output
              ["particle.template"; "run.template"] [] "species.template"
              empty_world)
    as (w' & Hrun & Hw' & Htrace).
  - reflexivity.
  - apply Forall_forall. repeat constructor.
  - reflexivity.
  - exists w'. split; [exact Hrun |]. split.
    + rewrite Hw'. vm_compute. reflexivity.
    + rewrite Htrace. reflexivity.
Defined.

End WriterExamples.

(** ** Properties of the result monad *)

Module ResultFacts.

Lemma bind_Ok {A B} (r : result A) (k : A → result B) (b : B) :
  r ≫= k = Ok b → ∃ a, r = Ok a ∧ k a = Ok b.
Proof. destruct r as [a|e]; [by exists a | done]. Qed.

Lemma raises_only_ret {A} (P : exn → Prop) (a : A) :
  raises_only P (mret a : result A).
Proof. by intros e. Qed.

Lemma raises_only_Raise {A} (P : exn → Prop) (e : exn) :
  P e → raises_only P (Raise e : result A).
Proof. by intros He e' [= <-]. Qed.

Lemma raises_only_bind {A B} (P : exn → Prop) (r : result A)
    (k : A → result B) :
  raises_only P r → (∀ a, raises_only P (k a)) → raises_only P (r ≫= k).
Proof.
  intros Hr Hk e. destruct r as [a|e']; [apply Hk |].
  intros [= <-]. by apply Hr.
Qed.

Lemma raises_only_of_option {A} (P : exn → Prop) (o : option A) (e : exn) :
  P e → raises_only P (of_option o e).
Proof. intros He e'. destruct o; [done |]. by intros [= <-]. Qed.

Lemma raises_only_index (P : exn → Prop) (v : pyval) (i : nat) :
  P IndexError → P TypeError → raises_only P (index v i).
Proof.
  intros HI HT. destruct v; try (by apply raises_only_Raise);
    by apply raises_only_of_option.
Qed.

Lemma raises_only_getitem {V} (P : exn → Prop) (d : gmap string V)
    (k : pyval) :
  P (KeyError k) → P TypeError → raises_only P (getitem d k).
Proof.
  intros HK HT. unfold getitem.
  destruct k; try destruct (hashable _); try (by apply raises_only_Raise).
  by apply raises_only_of_option.
Qed.

Lemma raises_only_render_text `{Mako} (P : exn → Prop) (text : string)
    (args : gmap string pyval) :
  P MakoError → raises_only P (render_text text args).
Proof.
  intros HM. unfold render_text.
  apply raises_only_bind; [| intros template];
    by apply raises_only_of_option.
Qed.

End ResultFacts.

(** Inverts a hypothesis that a sequence of binds ends normally. *)
Ltac invert_bind H :=
  repeat
    (let x := fresh "x" in
     let Hx := fresh "Hx" in
     apply ResultFacts.bind_Ok in H as (x & Hx & H)).

(** Splits the proof that a computation raises only exceptions of some
    kind along its binds and branches; [tac] proves that an exception
    is of the kind. *)
Ltac raises_only tac :=
  repeat first
    [ apply ResultFacts.raises_only_ret
    | apply ResultFacts.raises_only_Raise; tac
    | apply ResultFacts.raises_only_index; tac
    | apply ResultFacts.raises_only_getitem; tac
    | apply ResultFacts.raises_only_render_text; tac
    | apply ResultFacts.raises_only_of_option; tac
    | apply ResultFacts.raises_only_bind; [| intros ?]
    | case_match ].

(** ** Properties of the Particle constructor *)

Module ParticleFacts.
Import Writer PogitParticle ResultFacts MergeFacts PassFacts.

Lemma ionizable_spec (species : string) :
  ionizable species = true ↔ species = "ion" ∨ species = "generic_ionizable".
Proof.
  unfold ionizable. rewrite orb_true_iff, !bool_decide_eq_true. tauto.
Qed.

Lemma ionizable_false (species : string) :
  species ≠ "ion" → species ≠ "generic_ionizable" → ionizable species = false.
Proof.
  intros Hion Hgen. apply not_true_is_false. rewrite ionizable_spec. tauto.
Qed.

Lemma is_not_None_VNone (v : pyval) : is_not_None v = false ↔ v = VNone.
Proof. by destruct v. Qed.

Lemma is_None_false (v : pyval) : v ≠ VNone → is_None v = false.
Proof. by destruct v. Qed.

Section Init.
Context `{Mako} `{Codelets}.
Variable format_float : PrimFloat.float → string.
Variables atomic_mass m_e : PrimFloat.float.
Variable table_element : pyval → option Element.
Variable element_error : pyval → exn.

Local Abbreviation build_params :=
  (build_params format_float atomic_mass m_e table_element element_error).
Local Abbreviation Particle_init :=
  (Particle_init format_float atomic_mass m_e table_element element_error).

Lemma template_species_Ok (params : gmap string pyval) (t : objectTemplate) :
  template_species params = Ok t → filename t = "species.template".
Proof. unfold template_species. intros Ht. invert_bind Ht. by injection Ht as <-. Qed.

Lemma template_speciesDefinition_Ok (a : InitArgs) (params : gmap string pyval)
    (t : objectTemplate) :
  template_speciesDefinition a params = Ok t →
  filename t = "speciesDefinition.template".
Proof.
  unfold template_speciesDefinition. intros Ht. invert_bind Ht.
  by injection Ht as <-.
Qed.

Lemma template_density_Ok (a : InitArgs) (params : gmap string pyval)
    (t : objectTemplate) :
  template_density a params = Ok t → filename t = "density.template".
Proof. unfold template_density. intros Ht. invert_bind Ht. by injection Ht as <-. Qed.

(** The particle template always binds ['Manipulators'], to the empty
    string when neither manipulator applies. *)
Lemma template_particle_Ok (a : InitArgs) (params : gmap string pyval)
    (t : objectTemplate) :
  template_particle a params = Ok t →
  filename t = "particle.template" ∧
  CommaAppendableArgs t = None ∧
  ∃ m frag, AppendableArgs t = Some m ∧ m !! "Manipulators" = Some frag ∧
            (ionizable (species a) = false → initial_temperature a = VNone →
             frag = "").
Proof.
  unfold template_particle. intros Ht. invert_bind Ht.
  injection Ht as <-. cbn [filename CommaAppendableArgs AppendableArgs].
  split; [done |]. split; [done |].
  eexists _, _. split; [done |]. split; [apply lookup_insert_eq |].
  intros Hion Htemp. rewrite Hion in Hx0.
  apply is_not_None_VNone in Htemp. rewrite Htemp in Hx1.
  injection Hx0 as <-. by injection Hx1 as <-.
Qed.

(** The species-initialization template binds ['CreateManipulate']
    exactly when a density profile is given or the species can be
    ionized. *)
Lemma template_speciesInitialization_Ok (a : InitArgs)
    (params : gmap string pyval) (t : objectTemplate) :
  template_speciesInitialization a params = Ok t →
  filename t = "speciesInitialization.template" ∧
  MainArgs t = None ∧ AppendableArgs t = None ∧
  ∃ m, CommaAppendableArgs t = Some m ∧
       (is_Some (m !! "CreateManipulate") ↔
        density_profile a ≠ None ∨ ionizable (species a) = true).
Proof.
  unfold template_speciesInitialization. intros Ht. invert_bind Ht.
  injection Ht as <-.
  cbn [filename MainArgs AppendableArgs CommaAppendableArgs].
  do 3 (split; [done |]). eexists. split; [done |].
  case_bool_decide as Hdensity; destruct (ionizable (species a)).
  - invert_bind Hx. invert_bind Hx0. injection Hx as <-. injection Hx0 as <-.
    cbn. rewrite bool_decide_eq_true_2 by done.
    rewrite lookup_insert_eq. split; [by left | done].
  - invert_bind Hx. injection Hx as <-. injection Hx0 as <-.
    cbn. rewrite bool_decide_eq_true_2 by done.
    rewrite lookup_insert_eq. split; [by left | done].
  - injection Hx as <-. invert_bind Hx0. injection Hx0 as <-.
    cbn. rewrite bool_decide_eq_true_2 by done.
    rewrite lookup_insert_eq. split; [by right | done].
  - injection Hx as <-. injection Hx0 as <-.
    cbn. rewrite bool_decide_eq_false_2 by (intros Hn; by apply Hn).
    rewrite lookup_empty. split; [by intros [? ?] |].
    by intros [Hd|?].
Qed.

(** What a constructed Particle consists of. *)
Lemma Particle_init_Ok (a : InitArgs) (p : Particle) :
  Particle_init a = Ok p →
  ∃ params t_species t_speciesDefinition t_particle
      t_speciesInitialization t_density,
    build_params a = Ok params ∧
    template_species params = Ok t_species ∧
    template_speciesDefinition a params = Ok t_speciesDefinition ∧
    template_particle a params = Ok t_particle ∧
    template_speciesInitialization a params = Ok t_speciesInitialization ∧
    template_density a params = Ok t_density ∧
    p = {| self_name := name a;
           self_templates := [ t_species; t_particle; t_speciesDefinition;
                               t_speciesInitialization; t_density ] |}.
Proof.
  unfold PogitParticle.Particle_init. intros Hp. invert_bind Hp.
  injection Hp as <-. by eexists _, _, _, _, _, _.
Qed.

End Init.

End ParticleFacts.

(** ** The Particle constructor, claim by claim *)

Module ParticleSpec.
Import Writer PogitParticle ResultFacts MergeFacts PassFacts ParticleFacts.

Lemma contributions_app {Obj : Type} `{Templated Obj} (objs1 objs2 : list Obj)
    (fname : string) :
  contributions (objs1 ++ objs2) fname =
  contributions objs1 fname ++ contributions objs2 fname.
Proof. unfold contributions, all_templates. by rewrite bind_app, filter_app. Qed.

Section Init.
Context `{Mako} `{Codelets}.
Variable format_float : PrimFloat.float → string.
Variables atomic_mass m_e : PrimFloat.float.
Variable table_element : pyval → option Element.
Variable element_error : pyval → exn.

Local Abbreviation build_params :=
  (build_params format_float atomic_mass m_e table_element element_error).
Local Abbreviation Particle_init :=
  (Particle_init format_float atomic_mass m_e table_element element_error).

(** The contributions of a constructed Particle to the particle file
    and to the species-initialization file. *)
Lemma Particle_contributions (a : InitArgs) (p : Particle) :
  Particle_init a = Ok p →
  ∃ t_particle t_speciesInitialization params,
    template_particle a params = Ok t_particle ∧
    template_speciesInitialization a params = Ok t_speciesInitialization ∧
    contributions [p] "particle.template" = [t_particle] ∧
    contributions [p] "speciesInitialization.template"
      = [t_speciesInitialization].
Proof.
  intros Hp.
  apply Particle_init_Ok in Hp
    as (params & t1 & t2 & t3 & t4 & t5 & _ & H1 & H2 & H3 & H4 & H5 & ->).
  exists t3, t4, params. split; [done |]. split; [done |].
  apply template_species_Ok in H1. apply template_speciesDefinition_Ok in H2.
  apply template_density_Ok in H5.
  apply template_particle_Ok in H3 as (H3 & _).
  apply template_speciesInitialization_Ok in H4 as (H4 & _).
  unfold contributions, all_templates, templates, Particle_Templated.
  cbn [mbind list_bind self_templates app].
  rewrite !filter_cons, filter_nil, H1, H2, H3, H4, H5.
  split; reflexivity.
Qed.

(** The statements before the check of the element raise for a bad
    index only. *)
Lemma params_positions_raises (a : InitArgs) (params : gmap string pyval) :
  raises_only (λ e, e = IndexError ∨ e = TypeError)
              (params_positions a params).
Proof. unfold params_positions. raises_only ltac:(auto). Qed.

(** With an element, the statements of lines 153 to 160 raise for a
    missing target species only. *)
Lemma params_ionization_raises (a : InitArgs) (params : gmap string pyval) :
  element a ≠ VNone →
  raises_only (λ e, e = AttributeError "name") (params_ionization a params).
Proof.
  intros Helement. unfold params_ionization.
  rewrite (is_None_false _ Helement). raises_only ltac:(auto).
Qed.

(** The mass and charge ratios raise what the table of the elements
    raises, for the species ['ion'] and an element it does not find. *)
Lemma params_ratios_raises (a : InitArgs) (params : gmap string pyval) :
  raises_only (λ e, species a = "ion" ∧ table_element (element a) = None ∧
                    e = element_error (element a))
              (PogitParticle.params_ratios atomic_mass m_e table_element
                 element_error a params).
Proof.
  unfold params_ratios. destruct (_ || _); [done |].
  case_bool_decide as Hion; [| done].
  destruct (table_element (element a)); [done |].
  intros e [= <-]. auto.
Qed.

(** With an element, what the construction of [params] raises. *)
Lemma build_params_raises (a : InitArgs) :
  element a ≠ VNone →
  raises_only (λ e, e = KeyError (VInt (shape_order a)) ∨
                    e = IndexError ∨ e = TypeError ∨
                    e = AttributeError "name" ∨
                    (species a = "ion" ∧ table_element (element a) = None ∧
                     e = element_error (element a)))
              (build_params a).
Proof.
  intros Helement. unfold PogitParticle.build_params. cbv zeta.
  apply raises_only_bind; [apply raises_only_of_option; auto |].
  intros shape. apply raises_only_bind.
  { intros e He. apply params_positions_raises in He. tauto. }
  intros params. apply raises_only_bind.
  { intros e He. apply params_ionization_raises in He; auto. }
  intros params'. apply raises_only_bind; [| intros; apply raises_only_ret].
  intros e He. apply params_ratios_raises in He. tauto.
Qed.

(** C8.  For the species ['ion'] and ['generic_ionizable']: without an
    element the constructor raises, and what it raises is the
    [ValueError] about the element unless an earlier statement has
    raised for the shape order or the initial positions; it is that
    [ValueError] when the shape order is one of the four and no
    initial positions are given.  With an element the check raises
    nothing: the statements of lines 153 to 160 raise for a missing
    target species only, never the [ValueError] about the element, and
    when the constructor raises, either [params] was built and a
    template raised, or the construction of [params] raised for the
    shape order, the initial positions, the target species, or what
    the table of the elements raises for an element it does not
    find. *)
Theorem ionizable_species_needs_element (a : InitArgs) :
  species a = "ion" ∨ species a = "generic_ionizable" →
  (element a = VNone →
     ∃ e, Particle_init a = Raise e ∧
          (e = ValueError (species a +:+ " needs `element` argument") ∨
           e = KeyError (VInt (shape_order a)) ∨
           e = IndexError ∨ e = TypeError)) ∧
  (element a = VNone →
   is_Some (ParticleShapes !! shape_order a) →
   initial_positions a = VNone →
     Particle_init a =
     Raise (ValueError (species a +:+ " needs `element` argument"))) ∧
  (element a ≠ VNone →
     (∀ params e,
        params_ionization a params = Raise e → e = AttributeError "name") ∧
     (∀ params,
        params_ionization a params ≠
        Raise (ValueError (species a +:+ " needs `element` argument"))) ∧
     (∀ e, Particle_init a = Raise e →
        (∃ params, build_params a = Ok params) ∨
        (build_params a = Raise e ∧
         (e = KeyError (VInt (shape_order a)) ∨
          e = IndexError ∨ e = TypeError ∨
          e = AttributeError "name" ∨
          (species a = "ion" ∧ table_element (element a) = None ∧
           e = element_error (element a)))))).
Proof.
  intros Hspecies. apply ionizable_spec in Hspecies. split; [| split].
  - intros Helement.
    unfold PogitParticle.Particle_init, PogitParticle.build_params.
    destruct (ParticleShapes !! shape_order a) as [shape|];
      [| eexists; split; [reflexivity | tauto]].
    cbn [of_option mbind result_bind rbind]. cbv beta zeta.
    match goal with
    | |- context [params_positions a ?params] =>
        pose proof (params_positions_raises a params) as Hpos;
        destruct (params_positions a params) as [params'|e]
    end.
    + unfold params_ionization. rewrite Hspecies, Helement.
      eexists. split; [reflexivity | tauto].
    + exists e. split; [reflexivity |]. destruct (Hpos e eq_refl); tauto.
  - intros Helement [shape Hshape] Hpositions.
    unfold PogitParticle.Particle_init, PogitParticle.build_params,
      params_positions, params_ionization.
    by rewrite Hspecies, Helement, Hshape, Hpositions.
  - intros Helement. split; [| split].
    + intros params e. apply (params_ionization_raises a params Helement).
    + intros params Hraise.
      by apply (params_ionization_raises a params Helement) in Hraise.
    + intros e Hraise. unfold PogitParticle.Particle_init in Hraise.
      pose proof (build_params_raises a Helement) as Hbuild.
      destruct (build_params a) as [params|e'] eqn:Hb; [left; eauto |].
      right. injection Hraise as <-. split; [done |]. by apply Hbuild.
Qed.

(** C9.  The contribution of a constructed Particle to
    ['particle.template'] binds ['Manipulators'] in its appendable
    arguments.  When the species is neither ['ion'] nor
    ['generic_ionizable'] and no initial temperature is given, the
    fragment is the empty string, and the manipulators of this
    Particle merged with those of any Particle constructed after it
    start with a line feed, that is, with an empty line. *)
Theorem manipulators_always_bound (a : InitArgs) (p : Particle) :
  Particle_init a = Ok p →
  ∃ t m frag,
    contributions [p] "particle.template" = [t] ∧
    AppendableArgs t = Some m ∧
    m !! "Manipulators" = Some frag ∧
    (species a ≠ "ion" → species a ≠ "generic_ionizable" →
     initial_temperature a = VNone →
       frag = "" ∧
       ∀ a' q, Particle_init a' = Ok q →
         ∃ frag',
           fragments AppendableArgs "Manipulators"
             (contributions [q] "particle.template") = [frag'] ∧
           template_args (gather [p; q] "particle.template") !! "Manipulators"
             = Some (VStr (LF +:+ frag'))).
Proof.
  intros Hp.
  apply Particle_contributions in Hp as (t & _ & params & Ht & _ & Hcs & _).
  apply template_particle_Ok in Ht
    as (_ & Hcomma & m & frag & Happ & Hfrag & Hempty).
  exists t, m, frag. do 3 (split; [done |]).
  intros Hion Hgen Htemp.
  assert (frag = "") as -> by (apply Hempty; [by apply ionizable_false | done]).
  split; [done |]. intros a' q Hq.
  apply Particle_contributions in Hq as (t' & _ & params' & Ht' & _ & Hcs' & _).
  apply template_particle_Ok in Ht'
    as (_ & Hcomma' & m' & frag' & Happ' & Hfrag' & _).
  exists frag'.
  assert (fragments AppendableArgs "Manipulators" [t'] = [frag']) as Hfrags'.
  { rewrite fragments_cons, Happ', Hfrag'. done. }
  split; [by rewrite Hcs' |].
  rewrite template_args_lookup, gather_comma, gather_appendable.
  change [p; q] with ([p] ++ [q]). rewrite contributions_app, Hcs, Hcs'.
  cbn [app]. rewrite !fragments_cons, Hcomma, Hcomma', Happ, Hfrag, Happ', Hfrag'.
  reflexivity.
Qed.

(** C10.  The contribution of a constructed Particle to
    ['speciesInitialization.template'] binds ['CreateManipulate'] in
    its comma-appendable arguments if and only if a density profile is
    given or the species is ['ion'] or ['generic_ionizable']; when it
    does not, the render context of that file for this Particle has no
    ['CreateManipulate'] either. *)
Theorem create_manipulate_bound_iff (a : InitArgs) (p : Particle) :
  Particle_init a = Ok p →
  ∃ t m,
    contributions [p] "speciesInitialization.template" = [t] ∧
    CommaAppendableArgs t = Some m ∧
    (is_Some (m !! "CreateManipulate") ↔
     density_profile a ≠ None ∨
     species a = "ion" ∨ species a = "generic_ionizable") ∧
    (m !! "CreateManipulate" = None →
     template_args (gather [p] "speciesInitialization.template")
       !! "CreateManipulate" = None).
Proof.
  intros Hp.
  apply Particle_contributions in Hp as (_ & t & params & _ & Ht & _ & Hcs).
  apply template_speciesInitialization_Ok in Ht
    as (_ & Hmain & Happ & m & Hcomma & Hiff).
  exists t, m. do 2 (split; [done |]). split.
  - by rewrite Hiff, ionizable_spec.
  - intros Hnone.
    rewrite template_args_lookup, gather_comma, gather_appendable, gather_main.
    rewrite Hcs, !fragments_cons, Hcomma, Hnone, Happ.
    cbn [omap list_omap]. by rewrite Hmain.
Qed.

End Init.

End ParticleSpec.

(** ** The constructor on concrete arguments *)

Module ParticleExamples.
Import Writer PogitParticle Examples ParticleSpec.
Import PrimFloat.

(** C8 at an ion without element. *)
Lemma ionizable_species_needs_element_witness :
  sample_init bare_ions_args
  = Raise (ValueError "ion needs `element` argument").
Proof.
  refine (proj1 (proj2 (ionizable_species_needs_element
                          (H := echo_mako) (H0 := sample_codelets)
                          sample_format 1%float 1%float sample_table
                          sample_element_error
                          bare_ions_args _)) _ _ _).
  - left. reflexivity.
  - reflexivity.
  - eexists. reflexivity.
  - reflexivity.
Defined.

(** An ion whose element the table does not find: the constructor
    raises what the table raises. *)
Example unknown_element_raises_table_error :
  Particle_init (H := echo_mako) (H0 := sample_codelets)
    sample_format 1%float 1%float unknown_table sample_element_error
    ions_args
  = Raise (ValueError "Element not found").
Proof. reflexivity. Qed.

(** C9 at the electrons, followed by the ions: the merged manipulators
    start with an empty line. *)
Lemma manipulators_always_bound_witness :
  sample_init electrons_args = Ok electrons ∧
  sample_init ions_args = Ok ions ∧
  template_args (gather [electrons; ions] "particle.template") !! "Manipulators"
  = Some (VStr (LF +:+ "charge")).
Proof.
  assert (sample_init electrons_args = Ok electrons) as He
    by (vm_compute; reflexivity).
  assert (sample_init ions_args = Ok ions) as Hi
    by (vm_compute; reflexivity).
  split; [exact He |]. split; [exact Hi |].
  destruct (manipulators_always_bound
              (H := echo_mako) (H0 := sample_codelets)
              sample_format 1%float 1%float sample_table sample_element_error
              electrons_args electrons He)
    as (t & m & frag & _ & _ & _ & Hempty).
  destruct Hempty as [_ Hmerge]; [done | done | reflexivity |].
  destruct (Hmerge ions_args ions Hi) as (frag' & Hfrag' & Hcontext).
  rewrite Hcontext. do 3 f_equal.
  assert ([frag'] = ["charge"]) as [= ->]; [| done].
  rewrite <- Hfrag'. vm_compute. reflexivity.
Defined.

(** C10 at the ions: the key is bound. *)
Lemma create_manipulate_bound_iff_witness :
  sample_init ions_args = Ok ions ∧
  ∃ t m,
    contributions [ions] "speciesInitialization.template" = [t] ∧
    CommaAppendableArgs t = Some m ∧
    is_Some (m !! "CreateManipulate").
Proof.
  assert (sample_init ions_args = Ok ions) as Hi
    by (vm_compute; reflexivity).
  split; [exact Hi |].
  destruct (create_manipulate_bound_iff
              (H := echo_mako) (H0 := sample_codelets)
              sample_format 1%float 1%float sample_table sample_element_error
              ions_args ions Hi)
    as (t & m & Hcs & Hm & Hiff & _).
  exists t, m. split; [exact Hcs |]. split; [exact Hm |].
  apply Hiff. right. left. reflexivity.
Defined.

End ParticleExamples.

(** ** Further properties of the pass *)

Module PassProperties.
Import Writer PassVocabulary PyFacts MergeFacts DiscoveryFacts PassFacts.

Lemma writes_snoc (out : string → string) (fl : list string) (f : string)
    (w : world) :
  writes out (fl ++ [f]) w = written f (out f) (writes out fl w).
Proof. unfold writes. by rewrite foldl_snoc. Qed.

(** What is at a path after a run of writes: the text of the last file
    written there, or what was there before. *)
Lemma disk_writes_lookup (out : string → string) (fl : list string)
    (w : world) (path : string) :
  disk (writes out fl w) !! path =
  match last (filter (λ f, dest_path f = path) fl) with
  | Some f => Some (out f)
  | None => disk w !! path
  end.
Proof.
  induction fl as [|f fl IH] using rev_ind; [done |].
  rewrite writes_snoc, filter_app, filter_cons, filter_nil.
  unfold written, wrote. cbn [disk]. fold (dest_path f).
  destruct (decide (dest_path f = path)) as [<-|Hne].
  - by rewrite last_snoc, lookup_insert_eq.
  - by rewrite app_nil_r, lookup_insert_ne.
Qed.

Lemma disk_writes_other (out : string → string) (fl : list string)
    (w : world) (path : string) :
  (∀ f, f ∈ fl → dest_path f ≠ path) →
  disk (writes out fl w) !! path = disk w !! path.
Proof.
  intros Hother. rewrite disk_writes_lookup.
  destruct (last _) as [f|] eqn:Hlast; [| done].
  apply last_Some_elem_of, list_elem_of_filter in Hlast as [Hpath Hf].
  by destruct (Hother f Hf).
Qed.

Lemma gather_template_filter (fname : string) (ts : list objectTemplate)
    (b : buckets) :
  foldl (gather_template fname) b ts =
  foldl (gather_template fname) b (filter (λ t, filename t = fname) ts).
Proof.
  revert b. induction ts as [|t ts IH]; intros b; [done |].
  rewrite filter_cons. destruct (decide (filename t = fname)) as [Heq|Hne].
  - cbn [foldl]. apply IH.
  - cbn [foldl]. rewrite gather_template_miss by done. apply IH.
Qed.

Section Pass.
Context `{Mako} {Obj : Type} `{Templated Obj}.
Variable src_path : string.
Variable template_files : gmap string string.

Local Abbreviation rendered := (rendered src_path template_files).
Local Abbreviation render_file := (render_file src_path template_files).
Local Abbreviation WriteSimulationFiles :=
  (WriteSimulationFiles src_path template_files).
Local Abbreviation output := (output src_path template_files).
Local Abbreviation loads := (loads src_path template_files).

(** One iteration, in each of its three outcomes. *)
Lemma render_file_cases (objs : list Obj) (fname : string) (w : world) :
  render_file objs fname w =
  match Template_from_file template_files (templatePath src_path +:+ fname) with
  | Raise e => (Raise e, w)
  | Ok template =>
      match render template (template_args (gather objs fname)) with
      | Ok text => (Ok (), written fname text w)
      | Raise e => (Raise e, truncated fname w)
      end
  end.
Proof.
  destruct (Template_from_file _ _) as [template|e] eqn:Hload.
  - destruct (render _ _) as [text|e] eqn:Hrender.
    + apply render_file_rendered. unfold Writer.rendered. by rewrite Hload.
    + unfold Writer.render_file, truncated, dest_path, routed.
      unfold mbind, IO_bind, result_bind, lift. rewrite Hload.
      case_bool_decide; cbn; by rewrite Hrender.
  - unfold Writer.render_file. unfold mbind, IO_bind, result_bind, lift.
    by rewrite Hload.
Qed.

(** The loop, in each of its outcomes: it writes a prefix of the list
    and either reaches the end or stops at the first file that fails,
    with the destination of that file truncated when its template was
    loaded. *)
Lemma for_each_cases (objs : list Obj) (fl : list string) (w : world) :
  ∃ pre post,
    fl = pre ++ post ∧
    (∀ g, g ∈ pre → rendered objs g = Ok (output objs g)) ∧
    match post with
    | [] => for_each fl (render_file objs) w
            = (Ok (), writes (output objs) pre w)
    | f :: _ =>
        ∃ e, rendered objs f = Raise e ∧
             for_each fl (render_file objs) w =
             (Raise e,
              if loads f then truncated f (writes (output objs) pre w)
              else writes (output objs) pre w)
    end.
Proof.
  revert w. induction fl as [|f fl IH]; intros w.
  - exists [], []. split; [done |]. split; [| done]. by intros g ?%not_elem_of_nil.
  - destruct (rendered objs f) as [text|e] eqn:Hf.
    + destruct (IH (written f text w)) as (pre & post & -> & Hpre & Hpost).
      exists (f :: pre), post. split; [done |].
      assert (output objs f = text) as Hout
        by (unfold PassVocabulary.output; by rewrite Hf).
      split.
      * intros g [->|Hg]%elem_of_cons; [by rewrite Hout | by apply Hpre].
      * cbn [app for_each]. unfold mbind, IO_bind.
        rewrite (render_file_rendered _ _ _ _ text) by done.
        unfold writes. cbn [foldl]. rewrite Hout. exact Hpost.
    + exists [], (f :: fl). split; [done |].
      split; [by intros g ?%not_elem_of_nil |].
      exists e. split; [done |].
      cbn [for_each]. unfold mbind, IO_bind. rewrite render_file_cases.
      unfold PassVocabulary.loads.
      unfold Writer.rendered in Hf.
      destruct (Template_from_file _ _) as [template|e'].
      * cbn in Hf. by rewrite Hf.
      * by injection Hf as ->.
Qed.

Lemma for_each_ext {A} (l : list A) (body body' : A → IO unit) (w : world) :
  (∀ x w, body x w = body' x w) →
  for_each l body w = for_each l body' w.
Proof.
  intros Hext. revert w. induction l as [|x l IH]; intros w; [done |].
  cbn [for_each]. unfold mbind, IO_bind. rewrite Hext.
  destruct (body' x w) as [[[]|e] w1]; [apply IH | done].
Qed.

Lemma disk_writes_own (out : string → string) (fl : list string) (w : world)
    (f : string) :
  NoDup (dest_path <$> fl) → f ∈ fl →
  disk (writes out fl w) !! dest_path f = Some (out f).
Proof.
  induction fl as [|g fl IH] using rev_ind; intros Hnd Hf;
    [by apply not_elem_of_nil in Hf |].
  rewrite fmap_app in Hnd. apply NoDup_app in Hnd as (Hnd & Hfresh & _).
  rewrite writes_snoc. unfold written, wrote. cbn [disk]. fold (dest_path g).
  apply elem_of_app in Hf as [Hf|Hf%list_elem_of_singleton].
  - rewrite lookup_insert_ne; [by apply IH |].
    intros Heq. apply (Hfresh (dest_path f)).
    + apply list_elem_of_fmap. by exists f.
    + rewrite <- Heq. cbn. left.
  - subst g. apply lookup_insert_eq.
Qed.

Lemma list_files_concat (objs1 objs2 : list Obj) :
  list_files (objs1 ++ objs2) =
  list_files objs1 ++ filter (λ f, f ∉ list_files objs1) (list_files objs2).
Proof.
  rewrite (list_files_first_seen objs2). unfold list_files.
  rewrite !nested_loops. unfold all_templates.
  rewrite bind_app, foldl_app. apply list_file_first_seen.
Qed.

(** X1.  When the template of a target file loads and its rendering
    raises, the iteration ends with that exception after it has opened
    the destination: the destination is on disk, empty, whatever it
    held before, and nothing is written or reported. *)
Theorem render_failure_truncates_destination (objs : list Obj)
    (fname : string) (template : Tmpl) (e : exn) (w : world) :
  Template_from_file template_files (templatePath src_path +:+ fname)
    = Ok template →
  render template (template_args (gather objs fname)) = Raise e →
  render_file objs fname w = (Raise e, truncated fname w) ∧
  disk (truncated fname w) !! dest_path fname = Some "" ∧
  trace (truncated fname w) = trace w ++ [ EOpen (dest_path fname) ].
Proof.
  intros Hload Hrender. split; [| split].
  - by rewrite render_file_cases, Hload, Hrender.
  - apply lookup_insert_eq.
  - done.
Qed.

(** X2.  Whatever the objects and the world, the pass writes the files
    of a prefix of the discovered list, each with its rendering, and
    either reaches the end of the list and ends normally, or ends
    with the exception of the first file that fails to load or to
    render, having truncated the destination of that file when its
    template was loaded. *)
Theorem pass_writes_a_prefix (objs : list Obj) (w : world) :
  ∃ pre post,
    list_files objs = pre ++ post ∧
    (∀ g, g ∈ pre → rendered objs g = Ok (output objs g)) ∧
    match post with
    | [] => WriteSimulationFiles objs w = (Ok (), writes (output objs) pre w)
    | f :: _ =>
        ∃ e, rendered objs f = Raise e ∧
             WriteSimulationFiles objs w =
             (Raise e,
              if loads f then truncated f (writes (output objs) pre w)
              else writes (output objs) pre w)
    end.
Proof. apply for_each_cases. Qed.

(** X3.  Whatever its outcome, the pass leaves every path of the disk
    that is not the destination of a discovered file as it was. *)
Theorem pass_touches_destinations_only (objs : list Obj) (w w' : world)
    (r : result ()) (path : string) :
  WriteSimulationFiles objs w = (r, w') →
  (∀ f, f ∈ list_files objs → dest_path f ≠ path) →
  disk w' !! path = disk w !! path.
Proof.
  intros Hrun Hother.
  destruct (for_each_cases objs (list_files objs) w)
    as (pre & post & Hfl & _ & Hpost).
  assert (∀ f, f ∈ pre → dest_path f ≠ path) as Hpre.
  { intros f Hf. apply Hother. rewrite Hfl. apply elem_of_app. by left. }
  unfold Writer.WriteSimulationFiles in Hrun.
  destruct post as [|f post].
  - rewrite Hpost in Hrun. injection Hrun as _ <-.
    by apply disk_writes_other.
  - destruct Hpost as (e & _ & Hpost). rewrite Hpost in Hrun.
    injection Hrun as _ <-.
    destruct (loads f); [| by apply disk_writes_other].
    unfold truncated. cbn [disk]. rewrite lookup_insert_ne.
    + by apply disk_writes_other.
    + apply Hother. rewrite Hfl. apply elem_of_app. right. left.
Qed.

(** X4.  A pass that ends normally can be run again on the world it
    has left: the second pass ends normally too and leaves the disk
    as the first one did. *)
Theorem rerun_leaves_disk_unchanged (objs : list Obj) (w w1 : world) :
  WriteSimulationFiles objs w = (Ok (), w1) →
  ∃ w2, WriteSimulationFiles objs w1 = (Ok (), w2) ∧ disk w2 = disk w1.
Proof.
  intros Hrun. unfold Writer.WriteSimulationFiles in *.
  destruct (for_each_cases objs (list_files objs) w)
    as (pre & post & Hfl & Hpre & Hpost).
  destruct post as [|f post].
  - rewrite app_nil_r in Hfl. subst pre.
    rewrite Hpost in Hrun. injection Hrun as <-.
    eexists. split; [by apply for_each_rendered |].
    fold (writes (output objs) (list_files objs)
            (writes (output objs) (list_files objs) w)).
    apply map_eq. intros path. rewrite disk_writes_lookup.
    destruct (last _) as [f|] eqn:Hlast; [| done].
    by rewrite disk_writes_lookup, Hlast.
  - destruct Hpost as (e & _ & Hpost). by rewrite Hpost in Hrun.
Qed.

(** X5.  When every discovered file loads and renders and no two of
    them have the same destination, the pass ends normally and the
    destination of every discovered file holds the rendering of that
    file. *)
Theorem destinations_hold_their_renderings (objs : list Obj)
    (out : string → string) (w : world) :
  (∀ f, f ∈ list_files objs → rendered objs f = Ok (out f)) →
  NoDup (dest_path <$> list_files objs) →
  ∃ w', WriteSimulationFiles objs w = (Ok (), w') ∧
        ∀ f, f ∈ list_files objs → disk w' !! dest_path f = Some (out f).
Proof.
  intros Hok Hnd. eexists. split.
  - unfold Writer.WriteSimulationFiles. by apply for_each_rendered.
  - intros f Hf. by apply (disk_writes_own out).
Qed.

(** X6.  Every key that a contribution supplies in its appendable or
    its comma-appendable arguments is bound to a string in the render
    context: the list of fragments of a key is never left unjoined. *)
Theorem appendable_keys_are_bound_to_strings (objs : list Obj)
    (fname K : string) :
  let b := gather objs fname in
  K ∈ dom (templateAppendableArgs b) ∪ dom (templateCommaAppendableArgs b) →
  ∃ text, template_args b !! K = Some (VStr text).
Proof.
  intros b HK. rewrite template_args_lookup.
  destruct (templateCommaAppendableArgs b !! K) as [l|] eqn:Hcomma.
  - exists (str_join comma_LF l). rewrite join_comma_nonempty; [done |].
    pose proof (gather_comma objs fname K) as Hc. fold b in Hc.
    rewrite Hcomma in Hc. intros ->. by destruct (fragments _ _ _).
  - destruct (templateAppendableArgs b !! K) as [l|] eqn:Happ.
    + by exists (str_join LF l).
    + apply elem_of_union in HK as [HK|HK]; apply elem_of_dom in HK as [l Hl];
        congruence.
Qed.

(** X7.  The files discovered for a sequence of objects followed by
    another are the files of the first, followed by those files of the
    second that the first does not have, in their order. *)
Theorem list_files_app (objs1 objs2 : list Obj) :
  list_files (objs1 ++ objs2) =
  list_files objs1 ++ filter (λ f, f ∉ list_files objs1) (list_files objs2).
Proof. apply list_files_concat. Qed.

Section Regrouping.
Context {Obj' : Type} `{Templated Obj'}.

(** X8.  The render context and the rendering of a target file depend
    on the contributions to that file and their order only: objects
    and templates for other files do not matter. *)
Theorem context_depends_on_contributions (objs : list Obj)
    (objs' : list Obj') (fname : string) :
  contributions objs fname = contributions objs' fname →
  template_args (gather objs fname) = template_args (gather objs' fname) ∧
  rendered objs fname
  = Writer.rendered src_path template_files objs' fname.
Proof.
  intros Hcs.
  assert (gather objs fname = gather objs' fname) as Hgather.
  { unfold gather. rewrite !nested_loops.
    rewrite (gather_template_filter _ (all_templates objs)).
    rewrite (gather_template_filter _ (all_templates objs')).
    unfold contributions in Hcs. by rewrite Hcs. }
  unfold Writer.rendered. by rewrite Hgather.
Qed.

(** X9.  The pass depends on the sequence of all templates only, not
    on how the templates are grouped into objects; in particular it
    does nothing at all when the objects have no template. *)
Theorem pass_depends_on_all_templates (objs : list Obj) (objs' : list Obj')
    (w : world) :
  (all_templates objs = all_templates objs' →
   WriteSimulationFiles objs w
   = Writer.WriteSimulationFiles src_path template_files objs' w) ∧
  (all_templates objs = [] → WriteSimulationFiles objs w = (Ok (), w)).
Proof.
  split.
  - intros Hall. unfold Writer.WriteSimulationFiles.
    rewrite !list_files_first_seen, Hall.
    apply for_each_ext. intros fname w0.
    assert (gather objs fname = gather objs' fname) as Hgather.
    { unfold gather. by rewrite !nested_loops, Hall. }
    unfold Writer.render_file. by rewrite Hgather.
  - intros Hall. unfold Writer.WriteSimulationFiles.
    by rewrite list_files_first_seen, Hall.
Qed.

End Regrouping.

End Pass.

End PassProperties.

(** ** Further properties of the routing *)

Module RoutingProperties.
Import Writer PassVocabulary PyFacts.

Lemma first_segment_cons (c : ascii) (s seg : string) :
  first_segment s = String c seg ↔
  c ≠ "."%char ∧ ∃ s', s = String c s' ∧ first_segment s' = seg.
Proof.
  split.
  - destruct s as [|c' s']; [done |]. cbn [first_segment].
    case_bool_decide as Hdot; [done |]. intros [= -> <-]. eauto.
  - intros (Hdot & s' & -> & <-). cbn [first_segment].
    by rewrite bool_decide_eq_false_2.
Qed.

Lemma first_segment_nil (s : string) :
  first_segment s = "" ↔ s = "" ∨ ∃ rest, s = "." +:+ rest.
Proof.
  split.
  - destruct s as [|c s']; [by left |]. cbn [first_segment].
    case_bool_decide as Hdot; [| done]. intros _. right. exists s'.
    by rewrite Hdot.
  - intros [->|[rest ->]]; done.
Qed.

Lemma first_segment_run (s : string) :
  first_segment s = "run" ↔ s = "run" ∨ ∃ rest, s = "run." +:+ rest.
Proof.
  split.
  - intros Hs.
    apply first_segment_cons in Hs as (_ & s1 & -> & Hs).
    apply first_segment_cons in Hs as (_ & s2 & -> & Hs).
    apply first_segment_cons in Hs as (_ & s3 & -> & Hs).
    apply first_segment_nil in Hs as [->|[rest ->]]; [by left |].
    right. by exists rest.
  - intros [->|[rest ->]]; done.
Qed.

(** X10.  A target file is written under the run-configuration
    directory exactly when its name is ['run'] or starts with
    ['run.'], and under the parameter directory otherwise. *)
Theorem run_files_go_to_etc (fname : string) :
  ((routed fname).1 = path_etc ↔
   fname = "run" ∨ ∃ rest, fname = "run." +:+ rest) ∧
  ((routed fname).1 = path_include ↔
   ¬ (fname = "run" ∨ ∃ rest, fname = "run." +:+ rest)).
Proof.
  rewrite <- first_segment_run. unfold routed.
  case_bool_decide as Hrun; cbn [fst]; split; split; done.
Qed.

Lemma string_length_app (s t : string) :
  String.length (s +:+ t) = String.length s + String.length t.
Proof.
  induction s as [|c s IH]; [done |].
  rewrite string_app_cons. cbn [String.length]. by rewrite IH.
Qed.

Lemma str_drop_app_ge (s t : string) (i : nat) :
  (String.length s ≤ i)%nat →
  str_drop i (s +:+ t) = str_drop (i - String.length s) t.
Proof.
  revert i. induction s as [|c s IH]; intros i Hi.
  - by rewrite Nat.sub_0_r.
  - rewrite string_app_cons. destruct i as [|i]; cbn [String.length] in *;
      [lia |].
    cbn [str_drop]. apply IH. lia.
Qed.

Lemma startswith_split (p s : string) :
  startswith p s = true → s = p +:+ str_drop (String.length p) s.
Proof.
  revert s. induction p as [|a p IH]; intros s; [done |].
  destruct s as [|c s]; [done |]. cbn [startswith].
  intros [Hac Hp]%andb_true_iff. apply bool_decide_eq_true in Hac as ->.
  rewrite string_app_cons. cbn [String.length str_drop]. f_equal. by apply IH.
Qed.

(** The replacement of [old] by [new] cannot produce an occurrence of
    [old] when no occurrence of [old] can start inside [new] and no
    text that starts with [new] completes an occurrence begun before
    it. *)
Section Replace.
Variables old new : string.
Hypothesis old_not_empty : old ≠ "".
Hypothesis no_start_in_new : ∀ j t,
  j < String.length new → startswith old (str_drop j (new +:+ t)) = false.
Hypothesis no_completion_by_new : ∀ j t,
  j < String.length old → startswith (str_drop j old) (new +:+ t) = false.

Lemma str_replace_cons_hit (c : ascii) (r : string) :
  startswith old (String c r) = true →
  ∃ t, str_replace old new (String c r) = new +:+ t.
Proof.
  intros Hhit. unfold str_replace. cbn [replace_from]. rewrite Hhit. eauto.
Qed.

Lemma startswith_replaced (j : nat) (s : string) :
  j < String.length old →
  startswith (str_drop j old) (str_replace old new s) = true →
  startswith (str_drop j old) s = true.
Proof.
  intros Hj. remember (String.length old - j) as n eqn:Hn.
  revert j s Hj Hn. induction n as [|n IH]; intros j s Hj Hn; [lia |].
  destruct s as [|c r].
  - done.
  - destruct (startswith old (String c r)) eqn:Hhit.
    + destruct (str_replace_cons_hit c r Hhit) as [t ->].
      by rewrite no_completion_by_new.
    + rewrite str_replace_miss by done.
      assert (∃ a, str_drop j old = String a (str_drop (S j) old)) as [a Ha].
      { clear -Hj. revert j Hj. induction old as [|b o IHo]; intros j Hj;
          cbn [String.length] in Hj; [lia |].
        destruct j as [|j]; [by exists b |].
        cbn [str_drop]. apply IHo. lia. }
      rewrite Ha. cbn [startswith].
      intros [Hac Hrest]%andb_true_iff. rewrite Hac. cbn [andb].
      destruct (decide (S j < String.length old)) as [Hlt|Hge].
      * apply (IH (S j)); [done | lia | done].
      * replace (str_drop (S j) old) with "".
        { by destruct r. }
        clear -Hge. revert j Hge.
        induction old as [|b o IHo]; intros j Hge; [done |].
        cbn [String.length] in Hge. cbn [str_drop].
        destruct j as [|j]; [destruct o; [done | cbn [String.length] in Hge; lia] |].
        apply IHo. lia.
Qed.

Lemma str_replace_leaves_no_occurrence (s : string) (i : nat) :
  ¬ occurs_at old (str_replace old new s) i.
Proof.
  remember (String.length s) as n eqn:Hn.
  revert s i Hn. induction n as [n IH] using lt_wf_ind. intros s i Hn.
  unfold occurs_at. destruct s as [|c r].
  - destruct old; [done |]. by destruct i.
  - destruct (startswith old (String c r)) eqn:Hhit.
    + apply startswith_split in Hhit. rewrite Hhit.
      rewrite str_replace_hit by done.
      destruct (decide (i < String.length new)) as [Hi|Hi].
      * by rewrite no_start_in_new.
      * rewrite str_drop_app_ge by lia.
        apply (IH (String.length (str_drop (String.length old) (String c r))));
          [| done].
        rewrite Hn. rewrite Hhit at 2. rewrite string_length_app.
        destruct old; [done |]. cbn [String.length]. lia.
    + rewrite str_replace_miss by done. destruct i as [|i].
      * cbn [str_drop]. rewrite <- (str_replace_miss old new) by done.
        intros Hocc. apply (startswith_replaced 0) in Hocc.
        { cbn [str_drop] in Hocc. congruence. }
        destruct old; [done |]. cbn [String.length]. lia.
      * cbn [str_drop]. apply (IH (String.length r)); [| done].
        rewrite Hn. cbn [String.length]. lia.
Qed.

End Replace.

(** X11.  The name of a destination contains no occurrence of
    ['template'], whatever the name of the target file. *)
Theorem destination_name_has_no_template (fname : string) (i : nat) :
  ¬ occurs_at "template" (routed fname).2 i.
Proof.
  unfold routed. case_bool_decide; cbn [snd];
    apply str_replace_leaves_no_occurrence; try done.
  - intros j t Hj. cbn [String.length] in Hj.
    do 3 (destruct j as [|j]; [reflexivity |]). lia.
  - intros j t Hj. cbn [String.length] in Hj.
    do 8 (destruct j as [|j]; [reflexivity |]). lia.
  - intros j t Hj. cbn [String.length] in Hj.
    do 5 (destruct j as [|j]; [reflexivity |]). lia.
  - intros j t Hj. cbn [String.length] in Hj.
    do 8 (destruct j as [|j]; [reflexivity |]). lia.
Qed.

End RoutingProperties.

(** ** Further properties of the Particle constructor *)

Module ParticleProperties.
Import Writer PogitParticle ResultFacts MergeFacts PassFacts ParticleFacts.
Import PassVocabulary PassProperties.

Lemma ParticleShapes_lookup (z : Z) :
  is_Some (ParticleShapes !! z) ↔ (1 ≤ z ≤ 4)%Z.
Proof.
  unfold ParticleShapes. split.
  - intros [shape Hshape].
    destruct (decide (z = 1%Z)); [lia |].
    destruct (decide (z = 2%Z)); [lia |].
    destruct (decide (z = 3%Z)); [lia |].
    destruct (decide (z = 4%Z)); [lia |].
    rewrite !lookup_insert_ne in Hshape by lia.
    by rewrite lookup_singleton_ne in Hshape by lia.
  - intros Hz.
    assert (z = 1 ∨ z = 2 ∨ z = 3 ∨ z = 4)%Z as Hcases by lia.
    destruct Hcases as [Hz'|[Hz'|[Hz'|Hz']]]; subst z; by eexists.
Qed.

Section Init.
Context `{Mako} `{Codelets}.
Variable format_float : PrimFloat.float → string.
Variables atomic_mass m_e : PrimFloat.float.
Variable table_element : pyval → option Element.
Variable element_error : pyval → exn.

Local Abbreviation build_params :=
  (build_params format_float atomic_mass m_e table_element element_error).
Local Abbreviation params_ratios :=
  (params_ratios atomic_mass m_e table_element element_error).
Local Abbreviation Particle_init :=
  (Particle_init format_float atomic_mass m_e table_element element_error).

Lemma Particle_files (a : InitArgs) (p : Particle) :
  Particle_init a = Ok p →
  filename <$> self_templates p = particle_files.
Proof.
  intros Hp.
  apply Particle_init_Ok in Hp
    as (params & t1 & t2 & t3 & t4 & t5 & _ & H1 & H2 & H3 & H4 & H5 & ->).
  apply template_species_Ok in H1. apply template_speciesDefinition_Ok in H2.
  apply template_density_Ok in H5.
  apply template_particle_Ok in H3 as (H3 & _).
  apply template_speciesInitialization_Ok in H4 as (H4 & _).
  cbn. by rewrite H1, H2, H3, H4, H5.
Qed.

Lemma Particles_files (ps : list Particle) :
  Forall (λ p, ∃ a, Particle_init a = Ok p) ps →
  list_files ps = match ps with [] => [] | _ => particle_files end.
Proof.
  induction 1 as [|p ps [a Hp] _ IH]; [done |].
  change (p :: ps) with ([p] ++ ps). rewrite list_files_concat.
  assert (list_files [p] = particle_files) as ->.
  { rewrite list_files_first_seen. unfold all_templates.
    cbn [mbind list_bind]. rewrite app_nil_r.
    unfold templates, Particle_Templated. by rewrite (Particle_files a). }
  rewrite IH. by destruct ps.
Qed.

(** X12.  A constructed Particle carries its name and five templates,
    for the species, particle, species-definition,
    species-initialization and density files in this order; so a
    setup of Particles alone, however many, makes the pass discover
    exactly these five files, in this order. *)
Theorem particles_contribute_to_five_files (a : InitArgs) (p : Particle)
    (ps : list Particle) :
  Particle_init a = Ok p →
  Forall (λ q, ∃ a', Particle_init a' = Ok q) ps →
  self_name p = name a ∧
  filename <$> self_templates p =
    [ "species.template"; "particle.template"; "speciesDefinition.template";
      "speciesInitialization.template"; "density.template" ] ∧
  list_files (p :: ps) =
    [ "species.template"; "particle.template"; "speciesDefinition.template";
      "speciesInitialization.template"; "density.template" ].
Proof.
  intros Hp Hps. split; [| split].
  - apply Particle_init_Ok in Hp as (? & ? & ? & ? & ? & ? & Hp).
    by destruct Hp as (_ & _ & _ & _ & _ & _ & ->).
  - by apply Particle_files in Hp.
  - rewrite Particles_files; [done |]. constructor; [by exists a | done].
Qed.

(** X13.  A shape order other than 1, 2, 3 or 4 makes the constructor
    raise the [KeyError] of that order, whatever the other arguments;
    and a Particle is constructed for the four orders only. *)
Theorem shape_order_is_one_to_four (a : InitArgs) :
  (¬ (1 ≤ shape_order a ≤ 4)%Z →
   Particle_init a = Raise (KeyError (VInt (shape_order a)))) ∧
  (∀ p, Particle_init a = Ok p → (1 ≤ shape_order a ≤ 4)%Z).
Proof.
  assert (¬ (1 ≤ shape_order a ≤ 4)%Z →
          Particle_init a = Raise (KeyError (VInt (shape_order a)))) as Hbad.
  { intros Hz. rewrite <- ParticleShapes_lookup in Hz.
    unfold PogitParticle.Particle_init, PogitParticle.build_params.
    destruct (ParticleShapes !! shape_order a) as [shape|] eqn:Hshape; [| done].
    destruct Hz. by exists shape. }
  split; [exact Hbad |]. intros p Hp.
  destruct (decide (1 ≤ shape_order a ≤ 4)%Z) as [|Hz]; [done |].
  by rewrite (Hbad Hz) in Hp.
Qed.

Lemma contributions_concat {Obj : Type} `{Templated Obj}
    (objs1 objs2 : list Obj) (fname : string) :
  contributions (objs1 ++ objs2) fname =
  contributions objs1 fname ++ contributions objs2 fname.
Proof. unfold contributions, all_templates. by rewrite bind_app, filter_app. Qed.

Lemma fragments_app (src_of : objectTemplate → option (gmap string string))
    (K : string) (cs1 cs2 : list objectTemplate) :
  fragments src_of K (cs1 ++ cs2) =
  fragments src_of K cs1 ++ fragments src_of K cs2.
Proof. unfold fragments. apply omap_app. Qed.

(** All that a constructed Particle consists of, file by file. *)
Lemma Particle_parts (a : InitArgs) (p : Particle) :
  Particle_init a = Ok p →
  ∃ params t_species t_speciesDefinition t_particle
      t_speciesInitialization t_density,
    build_params a = Ok params ∧
    template_species params = Ok t_species ∧
    template_speciesDefinition a params = Ok t_speciesDefinition ∧
    template_particle a params = Ok t_particle ∧
    template_speciesInitialization a params = Ok t_speciesInitialization ∧
    template_density a params = Ok t_density ∧
    contributions [p] "species.template" = [t_species] ∧
    contributions [p] "speciesDefinition.template" = [t_speciesDefinition] ∧
    contributions [p] "particle.template" = [t_particle] ∧
    contributions [p] "speciesInitialization.template"
      = [t_speciesInitialization] ∧
    contributions [p] "density.template" = [t_density].
Proof.
  intros Hp.
  apply Particle_init_Ok in Hp
    as (params & t1 & t2 & t3 & t4 & t5 & Hb & H1 & H2 & H3 & H4 & H5 & ->).
  exists params, t1, t2, t3, t4, t5. do 6 (split; [done |]).
  apply template_species_Ok in H1. apply template_speciesDefinition_Ok in H2.
  apply template_density_Ok in H5.
  apply template_particle_Ok in H3 as (H3 & _).
  apply template_speciesInitialization_Ok in H4 as (H4 & _).
  unfold contributions, all_templates, templates, Particle_Templated.
  cbn [mbind list_bind self_templates app].
  rewrite !filter_cons, filter_nil, H1, H2, H3, H4, H5.
  repeat split; reflexivity.
Qed.

Lemma template_speciesDefinition_parts (a : InitArgs)
    (params : gmap string pyval) (t : objectTemplate) :
  template_speciesDefinition a params = Ok t →
  CommaAppendableArgs t = Some {[ "SpeciesRuntimeName" := "PIC_" +:+ name a ]} ∧
  is_Some (speciesDefinition !! species a).
Proof.
  unfold template_speciesDefinition. intros Ht. invert_bind Ht.
  injection Ht as <-. split; [done |].
  cbn [getitem] in Hx. destruct (speciesDefinition !! species a); [eauto | done].
Qed.

(** X14.  For a setup of Particles, the render context of the
    species-definition file binds ['SpeciesRuntimeName'] to the names
    of the Particles, each prefixed with ['PIC_'], joined by a comma
    and a line feed in the order of the Particles. *)
Theorem species_runtime_names_are_listed (args : list InitArgs)
    (ps : list Particle) :
  Forall2 (λ a p, Particle_init a = Ok p) args ps →
  ps ≠ [] →
  template_args (gather ps "speciesDefinition.template") !! "SpeciesRuntimeName"
  = Some (VStr (str_join comma_LF ((λ a, "PIC_" +:+ name a) <$> args))).
Proof.
  intros Hps Hne.
  assert (fragments CommaAppendableArgs "SpeciesRuntimeName"
            (contributions ps "speciesDefinition.template")
          = (λ a, "PIC_" +:+ name a) <$> args) as Hfrags.
  { clear Hne. induction Hps as [|a p args ps Hp _ IH]; [done |].
    change (p :: ps) with ([p] ++ ps).
    rewrite contributions_concat, fragments_app, IH.
    apply Particle_parts in Hp
      as (params & ? & t & ? & ? & ? & _ & _ & Ht & _ & _ & _ & _ & Hcs & _).
    apply template_speciesDefinition_parts in Ht as [Ht _].
    rewrite Hcs, fragments_cons, Ht, lookup_singleton_eq. done. }
  rewrite template_args_lookup, gather_comma, Hfrags.
  destruct Hps as [|a p args ps _ _]; [done |].
  cbn [fmap list_fmap bound_to]. by rewrite join_comma_nonempty.
Qed.

Lemma params_ionization_Ok (a : InitArgs) (params params' : gmap string pyval) :
  params_ionization a params = Ok params' →
  ionizable (species a) = true →
  element a ≠ VNone ∧ is_Some (target_species a).
Proof.
  unfold params_ionization. intros Hok Hion. rewrite Hion in Hok.
  destruct (element a); try done.
  all: cbn [is_None] in Hok; invert_bind Hok;
    destruct (target_species a); [eauto | done].
Qed.

Lemma params_ratios_Ok (a : InitArgs) (params params' : gmap string pyval) :
  params_ratios a params = Ok params' →
  species a = "ion" → is_Some (table_element (element a)).
Proof.
  unfold PogitParticle.params_ratios. intros Hok Hion. rewrite Hion in Hok.
  cbn in Hok.
  invert_bind Hok. destruct (table_element (element a)); [eauto | done].
Qed.

(** X15.  A Particle is constructed only if its species has a
    definition codelet; if moreover, for the species ['ion'] and
    ['generic_ionizable'], an element and a target species are given;
    and if, for the species ['ion'], the element is in the periodic
    table. *)
Theorem constructed_particle_requirements (a : InitArgs) (p : Particle) :
  Particle_init a = Ok p →
  is_Some (speciesDefinition !! species a) ∧
  (species a = "ion" ∨ species a = "generic_ionizable" →
   element a ≠ VNone ∧ is_Some (target_species a)) ∧
  (species a = "ion" → is_Some (table_element (element a))).
Proof.
  intros Hp.
  apply Particle_parts in Hp
    as (params & ? & t & ? & ? & ? & Hb & _ & Ht & _).
  apply template_speciesDefinition_parts in Ht as [_ Hdef].
  unfold PogitParticle.build_params in Hb. invert_bind Hb.
  split; [done |]. split.
  - intros Hion%ionizable_spec. by eapply params_ionization_Ok.
  - intros Hion. by eapply params_ratios_Ok.
Qed.

(** X16.  For the species ['ion'] and ['generic_ionizable'], an
    element without target species makes the constructor raise: the
    [AttributeError] of the missing name, unless an earlier statement
    has raised for the shape order or the initial positions. *)
Theorem ionizable_species_needs_target (a : InitArgs) :
  species a = "ion" ∨ species a = "generic_ionizable" →
  element a ≠ VNone →
  target_species a = None →
  ∃ e, Particle_init a = Raise e ∧
       (e = AttributeError "name" ∨
        e = KeyError (VInt (shape_order a)) ∨
        e = IndexError ∨ e = TypeError).
Proof.
  intros Hspecies%ionizable_spec Helement Htarget.
  unfold PogitParticle.Particle_init, PogitParticle.build_params.
  destruct (ParticleShapes !! shape_order a) as [shape|];
    [| eexists; split; [reflexivity | tauto]].
  cbn [of_option mbind result_bind rbind]. cbv beta zeta.
  match goal with
  | |- context [params_positions a ?params] =>
      pose proof (ParticleSpec.params_positions_raises a params) as Hpos;
      destruct (params_positions a params) as [params'|e]
  end.
  - unfold params_ionization.
    rewrite Hspecies, (is_None_false _ Helement), Htarget.
    eexists. split; [reflexivity | tauto].
  - exists e. split; [reflexivity |]. destruct (Hpos e eq_refl); tauto.
Qed.

(** The statements after the first two entries of [params] bind other
    keys. *)
Lemma params_positions_keeps (a : InitArgs) (params params' : gmap string pyval)
    (K : string) :
  K = "name" ∨ K = "type" →
  params_positions a params = Ok params' → params' !! K = params !! K.
Proof.
  intros HK. unfold params_positions.
  destruct (is_not_None _); [| by intros [= <-]].
  intros Hok. invert_bind Hok.
  destruct (eq_str _ "Ordered").
  - invert_bind Hok. injection Hok as <-.
    destruct HK as [->| ->]; by rewrite !lookup_insert_ne.
  - destruct (eq_str _ "Random"); [| by injection Hok as <-].
    invert_bind Hok. injection Hok as <-.
    destruct HK as [->| ->]; by rewrite !lookup_insert_ne.
Qed.

Lemma params_ionization_keeps (a : InitArgs)
    (params params' : gmap string pyval) (K : string) :
  K = "name" ∨ K = "type" →
  params_ionization a params = Ok params' → params' !! K = params !! K.
Proof.
  intros HK. unfold params_ionization.
  destruct (ionizable _); [| by intros [= <-]].
  destruct (is_None _); [done |].
  intros Hok. invert_bind Hok. injection Hok as <-.
  destruct HK as [->| ->]; by rewrite !lookup_insert_ne.
Qed.

Lemma params_ratios_keeps (a : InitArgs)
    (params params' : gmap string pyval) (K : string) :
  K = "name" ∨ K = "type" →
  params_ratios a params = Ok params' → params' !! K = params !! K.
Proof.
  intros HK. unfold PogitParticle.params_ratios.
  destruct (_ || _).
  - intros [= <-]. destruct HK as [->| ->]; by rewrite !lookup_insert_ne.
  - destruct (bool_decide _); [| by intros [= <-]].
    intros Hok. invert_bind Hok. injection Hok as <-.
    destruct HK as [->| ->]; by rewrite !lookup_insert_ne.
Qed.

Lemma build_params_Ok (a : InitArgs) (params : gmap string pyval) :
  build_params a = Ok params →
  params !! "name" = Some (VStr (name a)) ∧
  params !! "type" = Some (VStr (species a)) ∧
  ∀ K v, params !! K = Some v → ∀ z x, v ≠ VInt z ∧ v ≠ VFloat x.
Proof.
  unfold PogitParticle.build_params. intros Hb. invert_bind Hb.
  injection Hb as <-.
  assert (∀ K, K = "name" ∨ K = "type" →
            x2 !! K = (<["type" := VStr (species a)]>
                         (<["name" := VStr (name a)]>
                            (∅ : gmap string pyval))) !! K) as Hkeep.
  { intros K HK.
    rewrite (params_ratios_keeps _ _ _ K HK Hx2).
    rewrite (params_ionization_keeps _ _ _ K HK Hx1).
    assert (∀ m : gmap string pyval,
              (<["DensityRatio" := relative_density a]>
                 (if is_not_None (base_density a)
                  then <["BASE_DENSITY" := base_density a]>
                         (if is_not_None (typicalNppc a)
                          then <["TYPICAL_PARTICLES_PER_CELL" := typicalNppc a]> m
                          else m)
                  else if is_not_None (typicalNppc a)
                       then <["TYPICAL_PARTICLES_PER_CELL" := typicalNppc a]> m
                       else m)) !! K = m !! K) as ->.
    { intros m. destruct (is_not_None (base_density a)),
                         (is_not_None (typicalNppc a));
        destruct HK as [->| ->]; by rewrite !lookup_insert_ne. }
    rewrite (params_positions_keeps _ _ _ K HK Hx0).
    destruct HK as [->| ->]; by rewrite !lookup_insert_ne by done. }
  split; [| split].
  - rewrite lookup_fmap, Hkeep by auto.
    by rewrite lookup_insert_ne, lookup_insert_eq.
  - rewrite lookup_fmap, Hkeep by auto. by rewrite lookup_insert_eq.
  - intros K v. rewrite lookup_fmap.
    destruct (x2 !! K) as [v'|]; [| done].
    intros [= <-] z y. by destruct v'.
Qed.

Lemma template_particle_parts (a : InitArgs) (params : gmap string pyval)
    (t : objectTemplate) :
  template_particle a params = Ok t →
  MainArgs t = (if is_not_None (typicalNppc a) then Some params else None) ∧
  ∃ m, AppendableArgs t = Some m ∧
       (is_Some (m !! "StartPosition") ↔ initial_positions a ≠ VNone).
Proof.
  unfold template_particle. intros Ht. invert_bind Ht.
  injection Ht as <-. cbn [MainArgs AppendableArgs]. split; [done |].
  eexists. split; [done |]. rewrite lookup_insert_ne by done.
  destruct (initial_positions a) eqn:Hpos; cbn [is_not_None is_None negb] in Hx.
  - injection Hx as <-. rewrite lookup_empty. split; [by intros [? ?] | done].
  - invert_bind Hx. injection Hx as <-. by rewrite lookup_insert_eq.
  - invert_bind Hx. injection Hx as <-. by rewrite lookup_insert_eq.
  - invert_bind Hx. injection Hx as <-. by rewrite lookup_insert_eq.
  - invert_bind Hx. injection Hx as <-. by rewrite lookup_insert_eq.
  - invert_bind Hx. injection Hx as <-. by rewrite lookup_insert_eq.
Qed.

Lemma template_density_parts (a : InitArgs) (params : gmap string pyval)
    (t : objectTemplate) :
  template_density a params = Ok t →
  MainArgs t = (if is_not_None (base_density a) then Some params else None) ∧
  ∃ m, AppendableArgs t = Some m ∧
       (is_Some (m !! "densityProfile") ↔ density_profile a ≠ None).
Proof.
  unfold template_density. intros Ht. invert_bind Ht.
  injection Ht as <-. cbn [MainArgs AppendableArgs]. split; [done |].
  eexists. split; [done |].
  destruct (density_profile a) as [profile|].
  - invert_bind Hx. injection Hx as <-. by rewrite lookup_insert_eq.
  - injection Hx as <-. rewrite lookup_empty. split; [by intros [? ?] | done].
Qed.

(** X17.  The main arguments that a constructed Particle contributes
    are its dictionary [params]: to the particle file exactly when
    [typicalNppc] is given, and to the density file exactly when
    [base_density] is given.  This dictionary binds ['name'] to the
    name and ['type'] to the species, and none of its values is an
    integer or a float. *)
Theorem particle_main_args_are_params (a : InitArgs) (p : Particle) :
  Particle_init a = Ok p →
  ∃ params t_particle t_density,
    build_params a = Ok params ∧
    contributions [p] "particle.template" = [t_particle] ∧
    contributions [p] "density.template" = [t_density] ∧
    MainArgs t_particle
      = (if is_not_None (typicalNppc a) then Some params else None) ∧
    MainArgs t_density
      = (if is_not_None (base_density a) then Some params else None) ∧
    params !! "name" = Some (VStr (name a)) ∧
    params !! "type" = Some (VStr (species a)) ∧
    ∀ K v, params !! K = Some v → ∀ z x, v ≠ VInt z ∧ v ≠ VFloat x.
Proof.
  intros Hp.
  apply Particle_parts in Hp
    as (params & ? & ? & tp & ? & td & Hb & _ & _ & Htp & _ & Htd
        & _ & _ & Hcp & _ & Hcd).
  apply template_particle_parts in Htp as [Htp _].
  apply template_density_parts in Htd as [Htd _].
  exists params, tp, td. do 5 (split; [done |]).
  by apply build_params_Ok.
Qed.

(** X18.  The particle contribution of a constructed Particle binds
    ['StartPosition'] exactly when initial positions are given, and
    its density contribution binds ['densityProfile'] exactly when a
    density profile is given. *)
Theorem optional_fragments_follow_arguments (a : InitArgs) (p : Particle) :
  Particle_init a = Ok p →
  ∃ t_particle t_density m_particle m_density,
    contributions [p] "particle.template" = [t_particle] ∧
    AppendableArgs t_particle = Some m_particle ∧
    (is_Some (m_particle !! "StartPosition") ↔ initial_positions a ≠ VNone) ∧
    contributions [p] "density.template" = [t_density] ∧
    AppendableArgs t_density = Some m_density ∧
    (is_Some (m_density !! "densityProfile") ↔ density_profile a ≠ None).
Proof.
  intros Hp.
  apply Particle_parts in Hp
    as (params & ? & ? & tp & ? & td & Hb & _ & _ & Htp & _ & Htd
        & _ & _ & Hcp & _ & Hcd).
  apply template_particle_parts in Htp as (_ & mp & Hmp & Hstart).
  apply template_density_parts in Htd as (_ & md & Hmd & Hprofile).
  by exists tp, td, mp, md.
Qed.

End Init.

End ParticleProperties.

(** ** Properties of the Laser constructor *)

Module LaserProperties.
Import Writer PogitLaser PassVocabulary MergeFacts PassFacts.
Import PrimFloat.

Lemma bind_Built {A B} (b : built A) (k : A → built B) (y : B) :
  b ≫= k = Built y → ∃ a, b = Built a ∧ k a = Built y.
Proof. destruct b as [a|r]; [by exists a | done]. Qed.

Lemma of_result_Built {A} (r : result A) (a : A) :
  of_result r = Built a → r = Ok a.
Proof. destruct r; [by intros [= ->] | done]. Qed.

Lemma of_result_no_ZeroDivisionError {A} (r : result A) :
  of_result r ≠ Raises ZeroDivisionError.
Proof. by destruct r. Qed.

Lemma Polarisations_lookup (s : string) :
  is_Some (Polarisations !! s) ↔ s = "x" ∨ s = "z" ∨ s = "circ".
Proof.
  unfold Polarisations. split.
  - intros [v Hv].
    destruct (decide (s = "x")); [tauto |].
    destruct (decide (s = "z")); [tauto |].
    destruct (decide (s = "circ")); [tauto |].
    rewrite !lookup_insert_ne in Hv by done.
    by rewrite lookup_singleton_ne in Hv.
  - intros [->|[->| ->]]; by eexists.
Qed.

Section Init.
Context `{Mako}.
Variable LaserProfile : gmap string string.
Variable c : float.
Variable py_str : pyval → string.

Local Abbreviation laser_params := (laser_params c py_str).
Local Abbreviation Laser_init := (Laser_init LaserProfile c py_str).



(** X20.  The constructor raises a [ZeroDivisionError] exactly when
    the speed of light is zero or the pulse length
    [ctau / c / 1.17741] is: a Laser of no duration cannot be
    constructed. *)
Theorem zero_pulse_length_raises (a : LaserArgs) :
  Laser_init a = Raises ZeroDivisionError ↔
  (c =? 0)%float = true ∨ (ctau a / c / literal_1_17741 =? 0)%float = true.
Proof.
  unfold PogitLaser.Laser_init, PogitLaser.laser_params, truediv.
  unfold mbind, built_bind.
  destruct (c =? 0)%float; [split; [by left | done] |].
  change (literal_1_17741 =? 0)%float with false. cbv beta iota.
  destruct (ctau a / c / literal_1_17741 =? 0)%float;
    [split; [by right | done] |].
  split; [| by intros [?|?]].
  destruct (of_result (getitem Polarisations (pol a))) as [p|r] eqn:Hpol;
    [| intros [= ->]; by apply of_result_no_ZeroDivisionError in Hpol].
  cbv beta iota.
  destruct (of_result (getitem LaserProfile (profile a))) as [t|r] eqn:Hprof;
    [| intros [= ->]; by apply of_result_no_ZeroDivisionError in Hprof].
  unfold mret, built_ret. cbv beta iota zeta.
  match goal with
  | |- context [of_result (render_text ?text ?args)] =>
      destruct (of_result (render_text text args)) as [out|r] eqn:Htext
  end; [done |].
  intros [= ->]. by apply of_result_no_ZeroDivisionError in Htext.
Qed.

(** X21.  A Laser is constructed for the polarisations ['x'], ['z']
    and ['circ'] only; when the pulse length is not zero, any other
    string makes the constructor raise the [KeyError] of that
    string. *)
Theorem polarisation_is_x_z_or_circ (a : LaserArgs) :
  (∀ l, Laser_init a = Built l →
        pol a = VStr "x" ∨ pol a = VStr "z" ∨ pol a = VStr "circ") ∧
  (∀ s, pol a = VStr s → s ≠ "x" → s ≠ "z" → s ≠ "circ" →
        (c =? 0)%float = false →
        (ctau a / c / literal_1_17741 =? 0)%float = false →
        Laser_init a = Raises (Builtin (KeyError (VStr s)))).
Proof.
  split.
  - intros l Hl. unfold PogitLaser.Laser_init in Hl.
    apply bind_Built in Hl as (params & Hparams & _).
    unfold PogitLaser.laser_params in Hparams.
    repeat (apply bind_Built in Hparams as (? & ? & Hparams)).
    match goal with
    | Hpol : of_result (getitem Polarisations (pol a)) = Built _ |- _ =>
        apply of_result_Built in Hpol; rename Hpol into Hget
    end.
    unfold getitem in Hget.
    destruct (pol a) as [|s| | | |] eqn:Hs;
      try (match type of Hget with
           | context [hashable ?k] => by destruct (hashable k)
           end).
    destruct (Polarisations !! s) as [v|] eqn:Hv; [| done].
    destruct (proj1 (Polarisations_lookup s)) as [->|[->| ->]]; eauto.
  - intros s Hs Hx Hz Hcirc Hc Hpulse.
    assert (Polarisations !! s = None) as Hnone.
    { apply eq_None_not_Some. rewrite Polarisations_lookup. tauto. }
    unfold PogitLaser.Laser_init, PogitLaser.laser_params, truediv.
    unfold mbind, built_bind. rewrite Hc.
    change (literal_1_17741 =? 0)%float with false. cbv beta iota.
    rewrite Hpulse, Hs. cbn [getitem]. by rewrite Hnone.
Qed.

End Init.

End LaserProperties.

(** ** Particles and a Laser in one setup *)

Module SetupProperties.
Import Writer PogitParticle PogitLaser PassVocabulary.
Import MergeFacts PassFacts PassProperties ParticleProperties LaserProperties.



Section Setup.
Context `{Mako} `{Codelets}.
Variable format_float : PrimFloat.float → string.
Variables atomic_mass m_e : PrimFloat.float.
Variable table_element : pyval → option Element.
Variable element_error : pyval → exn.
Variable LaserProfile : gmap string string.
Variable c : PrimFloat.float.
Variable py_str : pyval → string.

Local Abbreviation Particle_init :=
  (Particle_init format_float atomic_mass m_e table_element element_error).
Local Abbreviation Laser_init := (Laser_init LaserProfile c py_str).



End Setup.

End SetupProperties.

(** ** The further properties on concrete objects *)

Module PropertyExamples.
Import Writer PogitParticle PogitLaser PassVocabulary Examples MoreExamples.
Import PassProperties RoutingProperties ParticleProperties LaserProperties.
Import SetupProperties.
Import PrimFloat.

(** X1 at a run template that does not render, in a world that has a
    run configuration. *)
Lemma render_failure_truncates_destination_witness :
  render_file (H := picky_mako) "pogit" broken_templates [object_B]
    "run.template" used_world
  = (Raise MakoError, truncated "run.template" used_world) ∧
  disk used_world !! "./etc/picongpu/run.cfg" = Some "old" ∧
  disk (truncated "run.template" used_world) !! "./etc/picongpu/run.cfg"
  = Some "".
Proof.
  destruct (render_failure_truncates_destination (H := picky_mako)
              "pogit" broken_templates [object_B] "run.template"
              "broken" MakoError used_world)
    as (Hrun & Hdisk & _); [reflexivity | reflexivity |].
  split; [exact Hrun |]. split; [reflexivity | exact Hdisk].
Defined.

(** X3 at the same package: a file that is no destination outlives
    the pass. *)
Lemma pass_touches_destinations_only_witness :
  disk (WriteSimulationFiles (H := picky_mako) "pogit" broken_templates
          [object_A; object_B] used_world).2 !! "./notes"
  = Some "mine".
Proof.
  refine (eq_trans
            (pass_touches_destinations_only (H := picky_mako)
               "pogit" broken_templates [object_A; object_B] used_world
               _ _ "./notes" (surjective_pairing _) _) _).
  - apply Forall_forall.
    replace (list_files [object_A; object_B])
      with ["particle.template"; "run.template"; "species.template"]
      by reflexivity.
    repeat constructor; discriminate.
  - reflexivity.
Defined.

(** X4 at the two objects and the full package. *)
Lemma rerun_leaves_disk_unchanged_witness :
  ∃ w1 w2,
    WriteSimulationFiles (H := echo_mako) "pogit" full_templates
      [object_A; object_B] used_world = (Ok (), w1) ∧
    WriteSimulationFiles (H := echo_mako) "pogit" full_templates
      [object_A; object_B] w1 = (Ok (), w2) ∧
    disk w2 = disk w1.
Proof.
  pose (w1 := (WriteSimulationFiles (H := echo_mako) "pogit" full_templates
                 [object_A; object_B] used_world).2).
  assert (WriteSimulationFiles (H := echo_mako) "pogit" full_templates
            [object_A; object_B] used_world = (Ok (), w1)) as Hrun
    by (vm_compute; reflexivity).
  destruct (rerun_leaves_disk_unchanged (H := echo_mako)
              "pogit" full_templates [object_A; object_B] used_world w1 Hrun)
    as (w2 & Hrerun & Hdisk).
  exists w1, w2. split; [exact Hrun |]. split; [exact Hrerun | exact Hdisk].
Defined.

(** X5 at the two objects and the full package. *)
Lemma destinations_hold_their_renderings_witness :
  ∃ w', WriteSimulationFiles (H := echo_mako) "pogit" full_templates
          [object_A; object_B] empty_world = (Ok (), w') ∧
        disk w' !! "./etc/picongpu/run.cfg" = Some "run".
Proof.
  destruct (destinations_hold_their_renderings (H := echo_mako)
              "pogit" full_templates [object_A; object_B]
              package_output empty_world)
    as (w' & Hrun & Hdisk).
  - apply Forall_forall.
    replace (list_files [object_A; object_B])
      with ["particle.template"; "run.template"; "species.template"]
      by reflexivity.
    repeat constructor.
  - apply (bool_decide_unpack _). vm_compute. exact I.
  - exists w'. split; [exact Hrun |].
    apply (Hdisk "run.template"). vm_compute.
    apply list_elem_of_In. right. left. reflexivity.
Defined.

(** X6 at a key of both appendable dictionaries. *)
Lemma appendable_keys_are_bound_to_strings_witness :
  ∃ text,
    template_args (gather [both_buckets] "a.template") !! "K"
    = Some (VStr text).
Proof.
  apply (appendable_keys_are_bound_to_strings [both_buckets] "a.template" "K").
  apply elem_of_union. left. apply elem_of_dom. exists ["x"]. reflexivity.
Defined.

(** X8 at the two objects, with and without a third one that
    contributes to another file. *)
Lemma context_depends_on_contributions_witness :
  template_args (gather [object_A; object_B] "particle.template")
  = template_args (gather [main_one; object_A; object_B] "particle.template").
Proof.
  refine (proj1 (context_depends_on_contributions (H := echo_mako)
                   "pogit" full_templates [object_A; object_B]
                   [main_one; object_A; object_B] "particle.template" _)).
  reflexivity.
Defined.

(** X9 at the two objects, apart and as one. *)
Lemma pass_depends_on_all_templates_witness :
  WriteSimulationFiles (H := echo_mako) "pogit" full_templates
    [object_A; object_B] empty_world
  = WriteSimulationFiles (H := echo_mako) "pogit" full_templates
      [object_AB] empty_world.
Proof.
  refine (proj1 (pass_depends_on_all_templates (H := echo_mako)
                   "pogit" full_templates [object_A; object_B]
                   [object_AB] empty_world) _).
  reflexivity.
Defined.

(** X12 at the electrons followed by the ions. *)
Lemma particles_contribute_to_five_files_witness :
  sample_init electrons_args = Ok electrons ∧
  sample_init ions_args = Ok ions ∧
  list_files [electrons; ions] =
    [ "species.template"; "particle.template"; "speciesDefinition.template";
      "speciesInitialization.template"; "density.template" ].
Proof.
  assert (sample_init electrons_args = Ok electrons) as He
    by (vm_compute; reflexivity).
  assert (sample_init ions_args = Ok ions) as Hi
    by (vm_compute; reflexivity).
  split; [exact He |]. split; [exact Hi |].
  refine (proj2 (proj2 (particles_contribute_to_five_files
                          (H := echo_mako) (H0 := sample_codelets)
                          sample_format 1%float 1%float sample_table
                          sample_element_error
                          electrons_args electrons [ions] He _))).
  constructor; [by exists ions_args | constructor].
Defined.

(** X13 at a shape order of five. *)
Lemma shape_order_is_one_to_four_witness :
  sample_init shapeless_args = Raise (KeyError (VInt 5)).
Proof.
  refine (proj1 (shape_order_is_one_to_four
                   (H := echo_mako) (H0 := sample_codelets)
                   sample_format 1%float 1%float sample_table
                   sample_element_error
                   shapeless_args) _).
  cbn. lia.
Defined.

(** X14 at the electrons followed by the ions. *)
Lemma species_runtime_names_are_listed_witness :
  template_args (gather [electrons; ions] "speciesDefinition.template")
    !! "SpeciesRuntimeName"
  = Some (VStr ("PIC_Electrons" +:+ comma_LF +:+ "PIC_Ions")).
Proof.
  refine (species_runtime_names_are_listed
            (H := echo_mako) (H0 := sample_codelets)
            sample_format 1%float 1%float sample_table sample_element_error
            [electrons_args; ions_args] [electrons; ions] _ _).
  - repeat constructor; vm_compute; reflexivity.
  - discriminate.
Defined.

(** X15 at the ions. *)
Lemma constructed_particle_requirements_witness :
  sample_init ions_args = Ok ions ∧
  element ions_args ≠ VNone ∧ is_Some (target_species ions_args).
Proof.
  assert (sample_init ions_args = Ok ions) as Hi
    by (vm_compute; reflexivity).
  split; [exact Hi |].
  apply (constructed_particle_requirements
           (H := echo_mako) (H0 := sample_codelets)
           sample_format 1%float 1%float sample_table
           sample_element_error ions_args ions Hi).
  left. reflexivity.
Defined.

(** X16 at ions without target species. *)
Lemma ionizable_species_needs_target_witness :
  ∃ e, sample_init orphan_ions_args = Raise e.
Proof.
  destruct (ionizable_species_needs_target
              (H := echo_mako) (H0 := sample_codelets)
              sample_format 1%float 1%float sample_table
              sample_element_error orphan_ions_args)
    as (e & He & _).
  - left. reflexivity.
  - discriminate.
  - reflexivity.
  - by exists e.
Defined.

(** X17 at the ions, which give [typicalNppc] and no [base_density]. *)
Lemma particle_main_args_are_params_witness :
  ∃ params t_particle t_density,
    contributions [ions] "particle.template" = [t_particle] ∧
    contributions [ions] "density.template" = [t_density] ∧
    MainArgs t_particle = Some params ∧
    MainArgs t_density = None ∧
    params !! "name" = Some (VStr "Ions").
Proof.
  assert (sample_init ions_args = Ok ions) as Hi
    by (vm_compute; reflexivity).
  destruct (particle_main_args_are_params
              (H := echo_mako) (H0 := sample_codelets)
              sample_format 1%float 1%float sample_table
              sample_element_error ions_args ions Hi)
    as (params & tp & td & _ & Hcp & Hcd & Hp & Hd & Hname & _).
  exists params, tp, td. split; [exact Hcp |]. split; [exact Hcd |].
  split; [exact Hp |]. split; [exact Hd | exact Hname].
Defined.

(** X18 at the ions, which give initial positions and no density
    profile. *)
Lemma optional_fragments_follow_arguments_witness :
  ∃ t_particle m_particle,
    contributions [ions] "particle.template" = [t_particle] ∧
    AppendableArgs t_particle = Some m_particle ∧
    is_Some (m_particle !! "StartPosition").
Proof.
  assert (sample_init ions_args = Ok ions) as Hi
    by (vm_compute; reflexivity).
  destruct (optional_fragments_follow_arguments
              (H := echo_mako) (H0 := sample_codelets)
              sample_format 1%float 1%float sample_table
              sample_element_error ions_args ions Hi)
    as (tp & td & mp & md & Hcp & Hmp & Hstart & _).
  exists tp, mp. split; [exact Hcp |]. split; [exact Hmp |].
  by apply Hstart.
Defined.


(** X20 at a laser of no duration. *)
Lemma zero_pulse_length_raises_witness :
  sample_laser still_laser_args = Raises ZeroDivisionError.
Proof.
  apply (zero_pulse_length_raises (H := echo_mako)
           sample_profiles 299792458%float sample_str still_laser_args).
  right. reflexivity.
Defined.

(** X21 at a laser polarised along y. *)
Lemma polarisation_is_x_z_or_circ_witness :
  sample_laser skew_laser_args = Raises (Builtin (KeyError (VStr "y"))).
Proof.
  apply (proj2 (polarisation_is_x_z_or_circ (H := echo_mako)
                  sample_profiles 299792458%float sample_str skew_laser_args)
           "y"); try done.
Defined.


End PropertyExamples.
